(** * InstrumentControl: the swept-frequency analyzer driver (vna.py)

    A shallow embedding of the acquisition, fitting and tracking engine of
    [vna.py], and the properties of it that the design document states.

    Conventions of the embedding.
    - Python floats are idealised.  Where the driver only adds, multiplies,
      divides and compares (segments, tracking, marker readouts) they are
      exact rationals [Q], so every definition of the acquisition cycle
      computes.  The resonance fitter needs [sqrt] and [log10] and is
      embedded over the reals [R].
    - Python exceptions are values of [exn]; a call either returns or
      raises ([outcome]).  Attribute mutations made before a raise stay
      made, so the driver's methods are state transformers that always hand
      back the state.
    - The instrument link ([scpi.Wrapper]), numpy and scipy are not part of
      the repository: the link is an interface ([ScpiLink]) and the
      numeric routines are parameters ([Numerics], [curve_fit]). *)

From Stdlib Require Import List String Ascii Bool Arith ZArith QArith Qabs Lia.
From Stdlib Require Import Sorted Permutation.
From Stdlib Require Import Reals Lra.
Import ListNotations.

Set Implicit Arguments.

Local Open Scope Q_scope.
Local Open Scope list_scope.

(* ------------------------------------------------------------------ *)
(** ** Python values: exceptions, outcomes, numbers *)

Inductive exn : Type :=
| VisaIOError
| RuntimeError
| ValueError
| ZeroDivisionError
| TypeError
| IndexError
| KeyError.

Definition exn_eqb (a b : exn) : bool :=
  match a, b with
  | VisaIOError, VisaIOError
  | RuntimeError, RuntimeError
  | ValueError, ValueError
  | ZeroDivisionError, ZeroDivisionError
  | TypeError, TypeError
  | IndexError, IndexError
  | KeyError, KeyError => true
  | _, _ => false
  end.

(** What a call does: it returns a value or raises. *)
Inductive outcome (A : Type) : Type :=
| Returned (a : A)
| Raised (e : exn).

Arguments Returned {A} a.
Arguments Raised {A} e.

Definition obind {A B} (o : outcome A) (k : A -> outcome B) : outcome B :=
  match o with
  | Returned a => k a
  | Raised e => Raised e
  end.

(** [x > y] on floats. *)
Definition Qgtb (x y : Q) : bool := negb (Qle_bool x y).

(** [x / y] on Python floats raises on a zero divisor.  (The numpy scalars
    that the raw-sweep branch hands to [track_window] give [inf] or [nan]
    instead; the rationals have neither.) *)
Definition truediv (x y : Q) : outcome Q :=
  if Qeq_bool y 0 then Raised ZeroDivisionError else Returned (x / y).

(** [l[start:stop]] for non-negative bounds: out-of-range bounds are
    clamped, never an error. *)
Definition slice {A} (start stop : nat) (l : list A) : list A :=
  firstn (stop - start) (skipn start l).

(** [l[i] = v] on a list that is long enough (the only use below). *)
Fixpoint setitem {A} (l : list A) (i : nat) (v : A) : list A :=
  match l, i with
  | [], _ => []
  | _ :: t, O => v :: t
  | h :: t, S j => h :: setitem t j v
  end.

(** [==] on a float-or-None and on lists, by value. *)
Definition optQ_eqb (a b : option Q) : bool :=
  match a, b with
  | Some x, Some y => Qeq_bool x y
  | None, None => true
  | _, _ => false
  end.

Fixpoint list_eqb {A} (eqb : A -> A -> bool) (l1 l2 : list A) : bool :=
  match l1, l2 with
  | [], [] => true
  | a :: t1, b :: t2 => eqb a b && list_eqb eqb t1 t2
  | _, _ => false
  end.

(* ------------------------------------------------------------------ *)
(** ** class Segment *)

Module Segment.

Record t : Type := mk {
    name : string;
    f0 : Q;
    f0_default : Q;
    span : Q;
    span_default : Q;
    points : nat;
    ifbw : Q;
    power : Q;
    enabled : bool
  }.

  (** [Segment.__init__] *)
Definition init (name : string) (f0 span : Q) (points : nat) (ifbw power : Q) : t :=
    mk name f0 f0 span span points ifbw power true.

Definition set_f0 (v : Q) (s : t) : t :=
    mk (name s) v (f0_default s) (span s) (span_default s)
       (points s) (ifbw s) (power s) (enabled s).

Definition set_span (v : Q) (s : t) : t :=
    mk (name s) (f0 s) (f0_default s) v (span_default s)
       (points s) (ifbw s) (power s) (enabled s).

Definition set_enabled (v : bool) (s : t) : t :=
    mk (name s) (f0 s) (f0_default s) (span s) (span_default s)
       (points s) (ifbw s) (power s) v.

End Segment.

(* ------------------------------------------------------------------ *)
(** ** The configuration handed to [setup] *)

Module Config.

  (** One entry of [config["segments"]]: the five keys [__init__] reads. *)
Record segment : Type := mk_segment {
    f0 : Q;
    span : Q;
    points : nat;
    ifbw : Q;
    power : Q
  }.

  (** [segments] is the dict in iteration (insertion) order. *)
Record t : Type := mk {
    segments : list (string * segment);
    track_frequency : bool;
    track_span : bool;
    use_markers : bool;
    bandwidth_factor : Q
  }.

End Config.

(* ------------------------------------------------------------------ *)
(** ** class VNAConfig *)

Module VNAConfig.

Record t : Type := mk {
    segments : list Segment.t;
    track_freq : bool;
    track_span : bool;
    use_markers : bool;
    bw_factor : Q;
    bw_factor_override : option Q;
    track_enabled : bool
  }.

  (** [list.sort(key=lambda seg: seg.f0)]: a stable sort that compares keys
      with [<]; an element goes in front of the first one that is not
      smaller, so equal keys keep their order. *)
Fixpoint insert_by_f0 (s : Segment.t) (l : list Segment.t) : list Segment.t :=
    match l with
    | [] => [s]
    | h :: t =>
        if Qle_bool (Segment.f0 s) (Segment.f0 h) then s :: h :: t
        else h :: insert_by_f0 s t
    end.

Fixpoint sort_by_f0 (l : list Segment.t) : list Segment.t :=
    match l with
    | [] => []
    | s :: t => insert_by_f0 s (sort_by_f0 t)
    end.

Definition segment_of (entry : string * Config.segment) : Segment.t :=
    let (n, s) := entry in
    Segment.init n (Config.f0 s) (Config.span s) (Config.points s)
                 (Config.ifbw s) (Config.power s).

  (** [VNAConfig.__init__] on a mapping that holds every key it looks up
      (the lookups themselves are [Mapping.read] below). *)
Definition init (config : Config.t) : t :=
    mk (sort_by_f0 (map segment_of (Config.segments config)))
       (Config.track_frequency config)
       (Config.track_span config)
       (Config.use_markers config)
       (Config.bandwidth_factor config)
       None
       true.

  (** [VNAConfig.get_bw_factor] *)
Definition get_bw_factor (c : t) : Q :=
    match bw_factor_override c with
    | Some v => v
    | None => bw_factor c
    end.

Definition set_segments (v : list Segment.t) (c : t) : t :=
    mk v (track_freq c) (track_span c) (use_markers c)
       (bw_factor c) (bw_factor_override c) (track_enabled c).

Definition set_use_markers (v : bool) (c : t) : t :=
    mk (segments c) (track_freq c) (track_span c) v
       (bw_factor c) (bw_factor_override c) (track_enabled c).

Definition set_bw_factor_override (v : option Q) (c : t) : t :=
    mk (segments c) (track_freq c) (track_span c) (use_markers c)
       (bw_factor c) v (track_enabled c).

Definition set_track_enabled (v : bool) (c : t) : t :=
    mk (segments c) (track_freq c) (track_span c) (use_markers c)
       (bw_factor c) (bw_factor_override c) v.

End VNAConfig.

(* ------------------------------------------------------------------ *)
(** ** The configuration as loaded *)

(** The [config] handed to [setup] is a mapping from which a key may be
    missing ([None]); [config[key]] raises [KeyError] then. *)
Module Mapping.

Record segment : Type := mk_segment {
    f0 : option Q;
    span : option Q;
    points : option nat;
    ifbw : option Q;
    power : option Q
  }.

Record t : Type := mk {
    segments : option (list (string * segment));
    track_frequency : option bool;
    track_span : option bool;
    use_markers : option bool;
    bandwidth_factor : option Q
  }.

(** [d[key]] *)
Definition item {A} (entry : option A) : outcome A :=
  match entry with
  | Some a => Returned a
  | None => Raised KeyError
  end.





End Mapping.

(* ------------------------------------------------------------------ *)
(** ** class Sample *)

Module Sample.

  (** A slot is a number, or [None] for a disabled segment. *)
Record t : Type := mk {
    bw : list (option Q);
    f0 : list (option Q);
    q : list (option Q);
    il : list (option Q);
    freq : list (option (list Q));
    ampl : list (option (list Q))
  }.

  (** [Sample.__init__] *)
Definition init : t := mk [] [] [] [] [] [].

  (** The four [append]s of a marker readout. *)
Definition append_marker (d : t) (vbw vf0 vq vil : Q) : t :=
    mk (bw d ++ [Some vbw]) (f0 d ++ [Some vf0]) (q d ++ [Some vq])
       (il d ++ [Some vil]) (freq d) (ampl d).

  (** The six [append]s after a successful fit. *)
Definition append_fit (d : t) (vbw vf0 vq vil : Q) (f a : list Q) : t :=
    mk (bw d ++ [Some vbw]) (f0 d ++ [Some vf0]) (q d ++ [Some vq])
       (il d ++ [Some vil]) (freq d ++ [Some f]) (ampl d ++ [Some a]).

  (** The six [append(None)] of a disabled segment. *)
Definition append_none (d : t) : t :=
    mk (bw d ++ [None]) (f0 d ++ [None]) (q d ++ [None])
       (il d ++ [None]) (freq d ++ [None]) (ampl d ++ [None]).

End Sample.

(* ------------------------------------------------------------------ *)
(** ** track_window *)

(** [track_window(center, span, f0, bw, center_err, span_err, bw_factor)].
    The second quotient is only evaluated when the first test is false
    ([or] short-circuits). *)
Definition track_window (center span f0 bw center_err span_err bw_factor : Q)
  : outcome (bool * bool) :=
  let ferr := Qabs (center - f0) + bw / 2 in
  let retrackf := Qgtb ferr (span * center_err * 0.5) in
  obind (truediv (bw * bw_factor) span) (fun r1 =>
  let retracks := Qgtb r1 (1 + span_err) in
  if retracks then Returned (retrackf, true)
  else
    obind (truediv span (bw * bw_factor)) (fun r2 =>
    Returned (retrackf, Qgtb r2 (1 + span_err)))).

(** The defaults of the signature. *)
Definition center_err_default : Q := 0.8.
Definition span_err_default : Q := 0.3.

(* ------------------------------------------------------------------ *)
(** ** Strings: [devname.split(",")[1].strip()] *)

(** [str.split(sep)] for a one-character separator. *)
Fixpoint split_on (sep : ascii) (s : string) : list string :=
  match s with
  | EmptyString => [EmptyString]
  | String c rest =>
      if Ascii.eqb c sep then EmptyString :: split_on sep rest
      else
        match split_on sep rest with
        | [] => [String c EmptyString]
        | w :: ws => String c w :: ws
        end
  end.

(** The characters [str.strip()] removes.  A [string] is read as a
    Python [str] of code points below 256, one per character; among those
    the white space is 9-13, 28-32, U+0085 (next line) and U+00A0
    (no-break space). *)
Definition is_space (c : ascii) : bool :=
  let n := nat_of_ascii c in
  ((9 <=? n) && (n <=? 13) || (28 <=? n) && (n <=? 32)
   || (n =? 133) || (n =? 160))%nat.

Fixpoint lstrip (s : string) : string :=
  match s with
  | EmptyString => EmptyString
  | String c rest => if is_space c then lstrip rest else s
  end.

Fixpoint rstrip (s : string) : string :=
  match s with
  | EmptyString => EmptyString
  | String c rest =>
      match rstrip rest with
      | EmptyString => if is_space c then EmptyString else String c EmptyString
      | r => String c r
      end
  end.

Definition strip (s : string) : string := rstrip (lstrip s).

(** [devname.split(",")[1].strip()] *)
Definition model_of_idn (devname : string) : outcome string :=
  match nth_error (split_on "," devname) 1 with
  | Some field => Returned (strip field)
  | None => Raised IndexError
  end.

(* ------------------------------------------------------------------ *)
(** ** The instrument link ([scpi.Wrapper]) *)

(** A format argument of a command template. *)
Inductive arg : Type :=
| AInt (n : Z)
| ANum (x : Q)
| AStr (s : string).

(** An element of the payload of [write_ascii_values]. *)
Inductive value : Type :=
| VNone
| VInt (n : Z)
| VNum (x : Q)
| VStr (s : string).

(** The calls the driver makes on the link. *)
Inductive call : Type :=
| Reset
| Write (template : string) (args : list arg)
| WriteValues (template : string) (data : list value) (args : list arg)
| Query (template : string) (args : list arg)
| QueryValues (template : string) (args : list arg)
| Close.

(** The link is a capability over some device state [D]; every operation
    may raise.  [onoff] is the formatting helper of the same module. *)
Class ScpiLink (D : Type) : Type := {
  reset : D -> outcome unit * D;
  write : string -> list arg -> D -> outcome unit * D;
  write_ascii_values : string -> list value -> list arg -> D -> outcome unit * D;
  query : string -> list arg -> D -> outcome string * D;
  query_ascii_values : string -> list arg -> D -> outcome (list Q) * D;
  close : D -> outcome unit * D;
  onoff : bool -> arg
}.

(** numpy and scipy as the acquisition cycle sees them: [np.sqrt], the
    fitter's verdict on a window (four numbers or an exception) and the
    slope [linregress] returns. *)
Class Numerics : Type := {
  np_sqrt : Q -> Q;
  lorentz_fit : list Q -> list Q -> outcome (Q * Q * Q * Q);
  linregress : list Q -> list Q -> outcome Q
}.

(* ------------------------------------------------------------------ *)
(** ** class VNA: state and method monad *)

Definition marker_readout : Type := list (list (option Q)).

Section Driver.

Context {D : Type} {link : ScpiLink D} {num : Numerics}.

  (** The attributes of a driver object. *)
Record VNA : Type := mkVNA {
    res : D;
    cfg : VNAConfig.t;
    model : string;
    last_sample : option marker_readout
  }.

Definition with_res (d : D) (s : VNA) : VNA :=
    mkVNA d (cfg s) (model s) (last_sample s).
Definition with_cfg (c : VNAConfig.t) (s : VNA) : VNA :=
    mkVNA (res s) c (model s) (last_sample s).
Definition with_model (m : string) (s : VNA) : VNA :=
    mkVNA (res s) (cfg s) m (last_sample s).
Definition with_last_sample (l : option marker_readout) (s : VNA) : VNA :=
    mkVNA (res s) (cfg s) (model s) l.

  (** One run of a method: what it returned or raised, the object
      afterwards, and the link calls it made, oldest first, each with the
      exception the link raised on it (if any). *)
Record run (A : Type) : Type := mkRun {
    result : outcome A;
    after : VNA;
    calls : list (call * option exn)
  }.

Definition M (A : Type) : Type := VNA -> run A.

Definition ret {A} (a : A) : M A := fun s => mkRun (Returned a) s [].

Definition raise {A} (e : exn) : M A := fun s => mkRun (Raised e) s [].

Definition bind {A B} (m : M A) (k : A -> M B) : M B :=
    fun s =>
      let r := m s in
      match result r with
      | Returned a =>
          let r' := k a (after r) in
          mkRun (result r') (after r') (calls r ++ calls r')
      | Raised e => mkRun (Raised e) (after r) (calls r)
      end.

Definition get : M VNA := fun s => mkRun (Returned s) s [].

Definition modify (f : VNA -> VNA) : M unit :=
    fun s => mkRun (Returned tt) (f s) [].

Definition lift {A} (o : outcome A) : M A :=
    fun s => mkRun o s [].

  (** [try: m  except VisaIOError: return None] *)
Definition except_visa {A} (m : M A) : M (option A) :=
    fun s =>
      let r := m s in
      match result r with
      | Returned a => mkRun (Returned (Some a)) (after r) (calls r)
      | Raised VisaIOError => mkRun (Returned None) (after r) (calls r)
      | Raised e => mkRun (Raised e) (after r) (calls r)
      end.

Definition raised_by {A} (o : outcome A) : option exn :=
    match o with
    | Returned _ => None
    | Raised e => Some e
    end.

  (** A call on [self.res]. *)
Definition on_link {A} (c : call) (op : D -> outcome A * D) : M A :=
    fun s =>
      let (o, d) := op (res s) in
      mkRun o (with_res d s) [(c, raised_by o)].

End Driver.

Arguments VNA D : clear implicits.
Arguments run D A : clear implicits.
Arguments M D A : clear implicits.

Declare Scope vna_scope.
Delimit Scope vna_scope with vna.
Notation "x <- m ;; k" := (bind m (fun x => k))
  (at level 61, m at next level, right associativity) : vna_scope.
Notation "m ;; k" := (bind m (fun _ => k))
  (at level 61, right associativity) : vna_scope.
Notation "' pat <- m ;; k" := (bind m (fun x => match x with pat => k end))
  (at level 61, pat pattern, m at next level, right associativity) : vna_scope.

(* ------------------------------------------------------------------ *)
(** ** class VNA: methods *)

(** The payload of the segment table for the N5232A:
    [data = ["SSTOP", None]], one 7-tuple per enabled segment, then
    [data[1] = enacount]. *)
Fixpoint segm_list_loop (segments : list Segment.t) (enacount : nat)
  (data : list value) : nat * list value :=
  match segments with
  | [] => (enacount, data)
  | s :: rest =>
      if Segment.enabled s then
        segm_list_loop rest (enacount + 1)
          (data ++ [VInt 1; VInt (Z.of_nat (Segment.points s)); VNum (Segment.f0 s);
                    VNum (Segment.span s); VNum (Segment.ifbw s); VInt 0;
                    VNum (Segment.power s)])
      else segm_list_loop rest enacount data
  end.

Definition segm_list (segments : list Segment.t) : list value :=
  let (enacount, data) := segm_list_loop segments 0 [VStr "SSTOP"; VNone] in
  setitem data 1 (VInt (Z.of_nat enacount)).

(** The payload for the other models:
    [data = [5, 1, 1, 1, 0, 0, None]], one 5-tuple per enabled segment,
    then [data[6] = enacount]. *)
Fixpoint segm_data_loop (segments : list Segment.t) (enacount : nat)
  (data : list value) : nat * list value :=
  match segments with
  | [] => (enacount, data)
  | s :: rest =>
      if Segment.enabled s then
        segm_data_loop rest (enacount + 1)
          (data ++ [VNum (Segment.f0 s); VNum (Segment.span s);
                    VInt (Z.of_nat (Segment.points s)); VNum (Segment.ifbw s);
                    VNum (Segment.power s)])
      else segm_data_loop rest enacount data
  end.

Definition segm_data (segments : list Segment.t) : list value :=
  let (enacount, data) :=
    segm_data_loop segments 0 [VInt 5; VInt 1; VInt 1; VInt 1; VInt 0; VInt 0; VNone] in
  setitem data 6 (VInt (Z.of_nat enacount)).

(** [cplx.reshape((-1,2)).T]: the two rows of an interleaved sequence; an
    odd length cannot be reshaped. *)
Fixpoint deinterleave (l : list Q) : outcome (list Q * list Q) :=
  match l with
  | [] => Returned ([], [])
  | [_] => Raised ValueError
  | x :: y :: rest =>
      obind (deinterleave rest) (fun p => Returned (x :: fst p, y :: snd p))
  end.

(** Truth value of [self.last_sample]: [None] and the empty list are false. *)
Definition truthy (l : option marker_readout) : bool :=
  match l with
  | None | Some [] => false
  | Some (_ :: _) => true
  end.

Definition readout_eqb (a b : marker_readout) : bool :=
  list_eqb (list_eqb optQ_eqb) a b.

Definition cons_fst {A B} (a : A) (p : list A * B) : list A * B :=
  (a :: fst p, snd p).

Section Methods.

Context {D : Type} {link : ScpiLink D} {num : Numerics}.

Local Open Scope vna_scope.
Local Open Scope string_scope.

Definition res_reset : M D unit := on_link Reset reset.
Definition res_write (t : string) (a : list arg) : M D unit :=
    on_link (Write t a) (write t a).
Definition res_write_ascii_values (t : string) (d : list value) (a : list arg)
    : M D unit :=
    on_link (WriteValues t d a) (write_ascii_values t d a).
Definition res_query (t : string) (a : list arg) : M D string :=
    on_link (Query t a) (query t a).
Definition res_query_ascii_values (t : string) (a : list arg) : M D (list Q) :=
    on_link (QueryValues t a) (query_ascii_values t a).
Definition res_close : M D unit := on_link Close close.

Definition is_N5232A (s : VNA D) : bool := String.eqb (model s) "N5232A".

  (** [VNA.set_segments] *)
Definition set_segments (segments : list Segment.t) (channel : Z) : M D unit :=
    s <- get ;;
    if is_N5232A s then
      let data := segm_list segments in
      res_write ":SENS{}:SEGM:BWID:CONT {}" [AInt channel; onoff true] ;;
      res_write ":SENS{}:SEGM:POW:CONT {}" [AInt channel; onoff true] ;;
      res_write_ascii_values ":SENS{}:SEGM:LIST" data [AInt channel]
    else
      let data := segm_data segments in
      res_write_ascii_values ":SENS{}:SEGM:DATA" data [AInt channel].

  (** [VNA.get_marker_data] *)
Definition get_marker_data (marker channel : Z) : M D (list Q) :=
    res_query_ascii_values ":CALC{}:MARK{}:BWID:DATA?" [AInt channel; AInt marker].

  (** [VNA.get_sweep_data] *)
Definition get_sweep_data (channel : Z) : M D (list Q) :=
    s <- get ;;
    if is_N5232A s then res_query_ascii_values ":CALC{}:DATA? SDAT" [AInt channel]
    else res_query_ascii_values ":CALC{}:DATA:SDAT?" [AInt channel].

  (** [VNA.get_freq_data] *)
Definition get_freq_data (channel : Z) : M D (list Q) :=
    s <- get ;;
    if is_N5232A s then res_query_ascii_values ":CALC{}:X?" [AInt channel]
    else res_query_ascii_values ":SENS{}:FREQ:DATA?" [AInt channel].

  (** [VNA.setup] once [VNAConfig(config)] has found every key
      ([time.sleep] has no effect on the state). *)
Definition setup (config : Config.t) : M D unit :=
    modify (with_cfg (VNAConfig.init config)) ;;
    res_reset ;;
    devname <- res_query "*IDN?" [] ;;
    m <- lift (model_of_idn devname) ;;
    modify (with_model m) ;;
    (if String.eqb m "N5232A"
     then modify (fun s => with_cfg (VNAConfig.set_use_markers false (cfg s)) s)
     else ret tt) ;;
    res_write ":CALC1:PAR1:DEF {}" [AStr "S21"] ;;
    res_write ":INIT1:CONT {}" [onoff true] ;;
    s <- get ;;
    (if negb (VNAConfig.use_markers (cfg s)) then
       if is_N5232A s then res_write ":TRIG:SOUR MAN" []
       else res_write ":TRIG:SOUR BUS" []
     else ret tt) ;;
    res_write ":SENS1:SWE:TYPE {}" [AStr "SEGM"] ;;
    res_write ":SENS1:SWE:DELAY {}" [ANum 0.001] ;;
    res_write ":SENS1:SWE:GEN {}" [AStr "STEP"] ;;
    s <- get ;;
    set_segments (VNAConfig.segments (cfg s)) 1 ;;
    res_write ":DISP:WIND1:TRAC1:Y:AUTO" [] ;;
    s <- get ;;
    (if VNAConfig.use_markers (cfg s) then
       res_write ":CALC1:MARK:BWID {}" [onoff true] ;;
       res_write ":CALC1:MARK:FUNC:MULT:TYPE {}" [AStr "PEAK"] ;;
       res_write ":CALC1:MARK:FUNC:EXEC" [] ;;
       res_write ":CALC1:MARK:FUNC:MULT:TRAC {}" [onoff true]
     else ret tt) ;;
    modify (with_last_sample None).


  (** [VNA.cleanup] *)
Definition cleanup : M D unit := res_close.

  (** The marker loop of [sample]: [for i in range(len(segments))], with
      the 4-way unpacking of each readout. *)
Fixpoint read_markers (indices : list nat) (data : Sample.t) : M D Sample.t :=
    match indices with
    | [] => ret data
    | i :: rest =>
        vals <- get_marker_data (Z.of_nat i + 1) 1 ;;
        match vals with
        | [vbw; vf0; vq; vil] =>
            read_markers rest (Sample.append_marker data vbw vf0 vq vil)
        | _ => raise ValueError
        end
    end.

  (** The fit loop of [sample] in raw-sweep mode.  It touches no attribute
      but the segments, which it hands back as mutated so far, with
      [(data, lost_track)] or the exception that left the loop. *)
Fixpoint fit_segments (nudge : bool) (freq ampl : list Q)
    (segments : list Segment.t) (start : nat) (data : Sample.t) (lost_track : bool)
    : list Segment.t * outcome (Sample.t * bool) :=
    match segments with
    | [] => ([], Returned (data, lost_track))
    | seg :: rest =>
        if Segment.enabled seg then
          let f := slice start (Segment.points seg + start) freq in
          let a := slice start (Segment.points seg + start) ampl in
          let start := (start + Segment.points seg)%nat in
          match lorentz_fit f a with
          | Returned (vbw, vf0, vq, vil) =>
              cons_fst seg
                (fit_segments nudge freq ampl rest start
                   (Sample.append_fit data vbw vf0 vq vil f a) lost_track)
          | Raised e =>
              if exn_eqb e RuntimeError || exn_eqb e ValueError then
                if nudge then
                  match linregress f a with
                  | Returned slope =>
                      let seg' :=
                        if Qgtb slope 0
                        then Segment.set_f0 (Segment.f0 seg + Segment.span seg) seg
                        else Segment.set_f0 (Segment.f0 seg - Segment.span seg) seg in
                      cons_fst seg' (fit_segments nudge freq ampl rest start data true)
                  | Raised e' => (seg :: rest, Raised e')
                  end
                else cons_fst seg (fit_segments nudge freq ampl rest start data true)
              else (seg :: rest, Raised e)
          end
        else
          cons_fst seg
            (fit_segments nudge freq ampl rest start (Sample.append_none data) lost_track)
    end.

  (** The tracking loop of [sample]:
      [for seg, f0, bw in zip(segments, data.f0, data.bw)]. *)
Fixpoint track_segments (c : VNAConfig.t) (segments : list Segment.t)
    (f0s bws : list (option Q)) (retracked : bool)
    : list Segment.t * outcome bool :=
    match segments, f0s, bws with
    | seg :: rest, f0 :: f0s', bw :: bws' =>
        if negb (Segment.enabled seg) then
          cons_fst seg (track_segments c rest f0s' bws' retracked)
        else
          match f0, bw with
          | Some f0, Some bw =>
              match track_window (Segment.f0 seg) (Segment.span seg) f0 bw
                      center_err_default span_err_default
                      (VNAConfig.get_bw_factor c) with
              | Returned (trackf, tracks) =>
                  if (trackf && VNAConfig.track_freq c)
                     || (tracks && VNAConfig.track_span c) then
                    let seg1 :=
                      if VNAConfig.track_freq c then Segment.set_f0 f0 seg else seg in
                    let seg2 :=
                      if VNAConfig.track_span c
                      then Segment.set_span (bw * VNAConfig.get_bw_factor c) seg1
                      else seg1 in
                    cons_fst seg2 (track_segments c rest f0s' bws' true)
                  else cons_fst seg (track_segments c rest f0s' bws' retracked)
              | Raised e => (seg :: rest, Raised e)
              end
          | _, _ => (seg :: rest, Raised TypeError)
          end
    | _, _, _ => (segments, Returned retracked)
    end.

  (** The segment objects are shared with [self.cfg.segments]: what a loop
      did to them is visible there, also when the loop raised. *)
Definition store_segments (segments : list Segment.t) : M D unit :=
    modify (fun s => with_cfg (VNAConfig.set_segments segments (cfg s)) s).

  (** [sample], lines 65-70: the single trigger of raw-sweep mode. *)
Definition trigger : M D unit :=
    s <- get ;;
    if negb (VNAConfig.use_markers (cfg s)) then
      (if is_N5232A s then res_write ":INIT:IMM" []
       else res_write ":TRIG:SING" []) ;;
      _ <- res_query "*OPC?" [] ;;
      ret tt
    else ret tt.

  (** [sample], lines 74-88: the marker branch.  [None] stands for the
      early [return None]. *)
Definition acquire_markers : M D (option Sample.t) :=
    s <- get ;;
    r <- except_visa
           (read_markers (seq 0 (List.length (VNAConfig.segments (cfg s)))) Sample.init) ;;
    match r with
    | None => ret None
    | Some data =>
        let arr := [Sample.bw data; Sample.f0 data; Sample.q data] in
        s <- get ;;
        if truthy (last_sample s) &&
           match last_sample s with
           | Some prev => readout_eqb prev arr
           | None => false
           end
        then ret None
        else modify (with_last_sample (Some arr)) ;; ret (Some data)
    end.

  (** [sample], lines 90-93: the two reads of raw-sweep mode and the
      magnitude of each complex pair. *)
Definition read_sweep : M D (list Q * list Q) :=
    raw <- get_sweep_data 1 ;;
    cplx <- lift (deinterleave raw) ;;
    let ampl :=
      map (fun p => np_sqrt (fst p ^ 2 + snd p ^ 2)) (combine (fst cplx) (snd cplx)) in
    freq <- get_freq_data 1 ;;
    ret (freq, ampl).

  (** [sample], lines 95-129: fit every window; on lost track reprogram
      (when frequency tracking is on) and return [None]. *)
Definition fit_sweep (freq ampl : list Q) : M D (option Sample.t) :=
    s <- get ;;
    let nudge := VNAConfig.track_freq (cfg s) && VNAConfig.track_enabled (cfg s) in
    let fitted :=
      fit_segments nudge freq ampl (VNAConfig.segments (cfg s)) 0 Sample.init false in
    store_segments (fst fitted) ;;
    r <- lift (snd fitted) ;;
    if (snd r : bool) then
      s <- get ;;
      (if VNAConfig.track_freq (cfg s) && VNAConfig.track_enabled (cfg s)
       then set_segments (VNAConfig.segments (cfg s)) 1
       else ret tt) ;;
      ret None
    else ret (Some (fst r)).

  (** [sample], lines 90-129: the raw-sweep branch. *)
Definition acquire_raw : M D (option Sample.t) :=
    sweep <- read_sweep ;;
    fit_sweep (fst sweep) (snd sweep).

  (** [sample], lines 131-156: the auto-tracking controller. *)
Definition retrack (data : Sample.t) : M D unit :=
    s <- get ;;
    let c := cfg s in
    if (VNAConfig.track_freq c || VNAConfig.track_span c) && VNAConfig.track_enabled c
    then
      let tracked :=
        track_segments c (VNAConfig.segments c) (Sample.f0 data) (Sample.bw data) false in
      store_segments (fst tracked) ;;
      retracked <- lift (snd tracked) ;;
      if (retracked : bool) then
        s <- get ;;
        set_segments (VNAConfig.segments (cfg s)) 1 ;;
        if VNAConfig.use_markers (cfg s) then
          (if is_N5232A s then
             res_write ":TRIG:SOUR MAN" [] ;;
             res_write ":INIT:IMM" []
           else
             res_write ":TRIG:SOUR BUS" [] ;;
             res_write ":TRIG:SING" []) ;;
          _ <- res_query "*OPC?" [] ;;
          res_write ":TRIG:SOUR INT" []
        else ret tt
      else ret tt
    else ret tt.

  (** [VNA.sample]: [Returned None] is the cycle without a result. *)
Definition sample (elapsed : Q) : M D (option Sample.t) :=
    trigger ;;
    s <- get ;;
    acquired <- (if VNAConfig.use_markers (cfg s) then acquire_markers
                 else acquire_raw) ;;
    match acquired with
    | None => ret None
    | Some data => retrack data ;; ret (Some data)
    end.

  (** The bodies of the deferred ([@runlater]) mutations. *)

  (** [VNA.set_segment_enabled] *)
Definition set_segment_enabled (segment : nat) (enabled : bool) : M D unit :=
    s <- get ;;
    match nth_error (VNAConfig.segments (cfg s)) segment with
    | None => raise IndexError
    | Some seg =>
        store_segments
          (setitem (VNAConfig.segments (cfg s)) segment
                   (Segment.set_enabled enabled seg)) ;;
        s <- get ;;
        set_segments (VNAConfig.segments (cfg s)) 1
    end.

  (** [VNA.set_bw_factor_override] *)
Definition set_bw_factor_override (factor : option Q) : M D unit :=
    modify (fun s => with_cfg (VNAConfig.set_bw_factor_override factor (cfg s)) s).

  (** [VNA.set_tracking_override] *)
Definition set_tracking_override (enabled : bool) : M D unit :=
    modify (fun s => with_cfg (VNAConfig.set_track_enabled enabled (cfg s)) s).

  (** [VNA.reset_tracking] *)
Definition reset_tracking : M D unit :=
    s <- get ;;
    store_segments
      (map (fun seg =>
              Segment.set_span (Segment.span_default seg)
                (Segment.set_f0 (Segment.f0_default seg) seg))
           (VNAConfig.segments (cfg s))) ;;
    s <- get ;;
    set_segments (VNAConfig.segments (cfg s)) 1.

End Methods.

(* ------------------------------------------------------------------ *)
(** ** class VNA: the methods without link traffic *)

Section Columns.

Context {D : Type}.

Local Open Scope string_scope.

(** [VNA.get_headers] *)
Definition get_headers (s : VNA D) : list string :=
  let segments := VNAConfig.segments (cfg s) in
  map (fun seg => "Frequency " ++ Segment.name seg ++ "/Hz") segments
  ++ map (fun seg => "Q factor " ++ Segment.name seg) segments
  ++ map (fun seg => "Insertion loss " ++ Segment.name seg ++ "/dB") segments.

(** [VNA.format_sample] *)
Definition format_sample (data : Sample.t) : list (option Q) :=
  Sample.f0 data ++ Sample.q data ++ Sample.il data.

End Columns.

(** [VNA.match_device] *)
Definition match_device (devname : string) : outcome bool :=
  obind (model_of_idn devname) (fun model =>
  Returned (String.eqb model "E5071C" || String.eqb model "E5071B"
            || String.eqb model "N5232A")).

(* ------------------------------------------------------------------ *)
(** ** backend.py: what the orchestration does with the driver *)

Module Backend.

Local Open Scope string_scope.

(** The loop of [Backend.set_config] over [config.instruments.items()],
    given as (name, type) pairs in iteration order: every instrument
    visited becomes the master, and the loop stops at the first "vna". *)
Fixpoint pick_master (instruments : list (string * string)) (master : string)
  : string :=
  match instruments with
  | [] => master
  | (name, type_) :: rest =>
      if String.eqb type_ "vna" then name else pick_master rest name
  end.

(** [Backend.set_config]: the value of [config.master_instrument]
    afterwards. *)
Definition set_config_master (master : string)
  (instruments : list (string * string)) : string :=
  if String.eqb master "" && negb (Nat.eqb (List.length instruments) 0)
  then pick_master instruments master
  else master.

(** The header row [Backend.start_logging] writes for a driver:
    [["Time (s)"] + inst.get_headers()]. *)
Definition header_row {D} (inst : VNA D) : list string :=
  "Time (s)" :: get_headers inst.

(** The row [Backend.process_samples] writes for a sample [s]:
    [[s[0] - self.log_time] + inst.format_sample(s[1])]. *)
Definition sample_row (log_time : Q) (s : Q * Sample.t) : list (option Q) :=
  Some (fst s - log_time) :: format_sample (snd s).

End Backend.


(* ------------------------------------------------------------------ *)
(** ** The resonance fitter ([lorentz_fn], [lorentz_fit]) *)

Module Fitter.

Local Open Scope R_scope.

  (** [lorentz_fn]: note that [**] binds tighter than [*]. *)
Definition lorentz_fn (x f0 bw pmax : R) : R :=
    pmax / sqrt (1 + (4 * ((x - f0) / bw) ^ 2)).

  (** The lineshape as the design document writes it:
      [pmax / sqrt(1 + (4·(x−f0)/bw)²)]. *)
Definition documented_lineshape (x f0 bw pmax : R) : R :=
    pmax / sqrt (1 + (4 * (x - f0) / bw) ^ 2).

  (** [np.max] and [np.min] raise on an empty array. *)
Definition np_max (l : list R) : outcome R :=
    match l with
    | [] => Raised ValueError
    | x :: t => Returned (fold_left Rmax t x)
    end.

Definition np_min (l : list R) : outcome R :=
    match l with
    | [] => Raised ValueError
    | x :: t => Returned (fold_left Rmin t x)
    end.

Definition log10 (x : R) : R := ln x / ln 10.

Section Fit.

    (** [scipy.optimize.curve_fit(f, xdata, ydata, p0, sigma)]: the fitted
        parameters, or the exception of a solve that did not converge. *)
Variable curve_fit :
      (R -> R -> R -> R -> R) -> list R -> list R -> R * R * R ->
      option (list R) -> outcome (R * R * R).

    (** [lorentz_fit(freq, ampl, f0, bw, pmax)].  [weights] is computed and
        not handed to the solver ([sigma] keeps its default). *)
Definition lorentz_fit (freq ampl : list R) (f0 bw pmax : R)
      : outcome (R * R * R * R) :=
      obind (np_max ampl) (fun maxa =>
      let norma := map (fun a => a / maxa) ampl in
      let weights := map (fun p => fst p * snd p) (combine norma norma) in
      obind (np_min freq) (fun minf =>
      obind (np_max freq) (fun maxf =>
      let fspan := maxf - minf in
      let normf := map (fun f => (f - minf) / fspan) freq in
      obind (curve_fit lorentz_fn normf norma (f0, bw, pmax) None) (fun p =>
      let '(f0, bw, pmax) := p in
      let f0 := f0 * fspan + minf in
      let bw := Rabs bw * fspan in
      let pmax := 20 * log10 (pmax * maxa) in
      Returned (bw, f0, f0 / bw, pmax))))).

End Fit.

(** A stand-in solver to run the fitter on: it hands back the start
    values, the bandwidth with its sign flipped. *)
Definition flipped_start (f : R -> R -> R -> R -> R) (xdata ydata : list R)
  (p0 : R * R * R) (sigma : option (list R)) : outcome (R * R * R) :=
  let '(f0, bw, pmax) := p0 in Returned (f0, - bw, pmax).

(** The same, but like the solver of the code it refuses fewer data
    points than parameters with a [TypeError]. *)
Definition needs_three_points (f : R -> R -> R -> R -> R)
  (xdata ydata : list R) (p0 : R * R * R) (sigma : option (list R))
  : outcome (R * R * R) :=
  if (List.length xdata <? 3)%nat then Raised TypeError
  else flipped_start f xdata ydata p0 sigma.

End Fitter.

(* ------------------------------------------------------------------ *)
(** ** Sessions: any sequence of cycles and deferred mutations *)

Inductive request : Type :=
| ReqSample (elapsed : Q)
| ReqSegmentEnabled (segment : nat) (enabled : bool)
| ReqBwFactorOverride (factor : option Q)
| ReqTrackingOverride (enabled : bool)
| ReqResetTracking.

Definition is_override (r : request) : bool :=
  match r with
  | ReqBwFactorOverride _ => true
  | _ => false
  end.

(** A read of the marker registers. *)
Definition is_marker_read (c : call) : bool :=
  match c with
  | QueryValues t _ => String.eqb t ":CALC{}:MARK{}:BWID:DATA?"
  | _ => false
  end.

Definition is_query_values (c : call) : bool :=
  match c with
  | QueryValues _ _ => true
  | _ => false
  end.

Section Session.

Context {D : Type} {link : ScpiLink D} {num : Numerics}.

Local Open Scope vna_scope.

Definition perform (r : request) : M D unit :=
  match r with
  | ReqSample elapsed => _ <- sample elapsed ;; ret tt
  | ReqSegmentEnabled i b => set_segment_enabled i b
  | ReqBwFactorOverride f => set_bw_factor_override f
  | ReqTrackingOverride b => set_tracking_override b
  | ReqResetTracking => reset_tracking
  end.

(** The driver object after a sequence of requests, whatever each of them
    returned or raised. *)
Definition after_all (rs : list request) (s : VNA D) : VNA D :=
  fold_left (fun s r => after (perform r s)) rs s.

End Session.

(* ------------------------------------------------------------------ *)
(** ** A simulated instrument, to run the driver on *)

Module Bench.

Local Open Scope string_scope.

  (** The simulated analyzer answers [*IDN?] with [idn], every other text
      query with "1", and value queries with the next scripted reply; with
      no reply left the query times out.  A [broken] link fails on every
      call. *)
Record device : Type := mk {
    idn : string;
    broken : bool;
    replies : list (list Q)
  }.

Definition guarded {A} (d : device) (a : A) : outcome A * device :=
    if broken d then (Raised VisaIOError, d) else (Returned a, d).

Definition link : ScpiLink device := {|
    reset := fun d => guarded d tt;
    write := fun _ _ d => guarded d tt;
    write_ascii_values := fun _ _ _ d => guarded d tt;
    query := fun t _ d => guarded d (if String.eqb t "*IDN?" then idn d else "1");
    query_ascii_values := fun _ _ d =>
      if broken d then (Raised VisaIOError, d)
      else
        match replies d with
        | [] => (Raised VisaIOError, d)
        | r :: rest => (Returned r, mk (idn d) (broken d) rest)
        end;
    close := fun d => guarded d tt;
    onoff := fun b => AStr (if b then "ON" else "OFF")
  |}.

  (** A rational square root, exact on squares. *)
Definition sqrtQ (x : Q) : Q :=
    Qmake (Z.sqrt (Qnum x * Zpos (Qden x))) (Qden x).

  (** The sample of largest amplitude (the first one among equals). *)
Fixpoint peak (f a : list Q) : option (Q * Q) :=
    match f, a with
    | x :: f', y :: a' =>
        match peak f' a' with
        | Some (px, py) => if Qgtb py y then Some (px, py) else Some (x, y)
        | None => Some (x, y)
        end
    | _, _ => None
    end.

  (** A stand-in fitter: the resonance is where the amplitude peaks; an
      empty window and a window without signal (peak 0, which cannot be
      normalised) are a [ValueError], and the fit does not converge when
      the peak sits on an edge of the window. *)
Definition peak_fit (f a : list Q) : outcome (Q * Q * Q * Q) :=
    match f, peak f a with
    | x0 :: _, Some (px, py) =>
        let xl := last f x0 in
        if Qeq_bool py 0 then Raised ValueError
        else if Qeq_bool px x0 || Qeq_bool px xl then Raised RuntimeError
        else
          let bw := (xl - x0) / 4 in
          Returned (bw, px, px / bw, py)
    | _, _ => Raised ValueError
    end.

Definition sumQ (l : list Q) : Q := fold_right Qplus 0 l.

  (** The least-squares slope. *)
Definition slope (x y : list Q) : outcome Q :=
    if negb (List.length x =? List.length y)%nat || (List.length x <? 2)%nat
    then Raised ValueError
    else
      let n := inject_Z (Z.of_nat (List.length x)) in
      let mx := sumQ x / n in
      let my := sumQ y / n in
      let sxx := sumQ (map (fun a => (a - mx) * (a - mx)) x) in
      let sxy := sumQ (map (fun p => (fst p - mx) * (snd p - my)) (combine x y)) in
      if Qeq_bool sxx 0 then Raised ValueError else Returned (Qred (sxy / sxx)).

Definition numerics : Numerics := {|
    np_sqrt := sqrtQ;
    lorentz_fit := peak_fit;
    linregress := slope
  |}.

  (** A driver object before [setup]. *)
Definition fresh (d : device) : VNA device :=
    mkVNA d (VNAConfig.mk [] false false false 0 None false) "" None.

Definition sample := @sample device link numerics.
Definition setup := @setup device link.
Definition after_all := @after_all device link numerics.
Definition set_bw_factor_override := @set_bw_factor_override device.

(** Two simulated analyzers. *)
Definition e5071c (replies : list (list Q)) : device :=
  mk "Agilent Technologies,E5071C,MY46100000,A.09.10" false replies.

Definition n5232a (replies : list (list Q)) : device :=
  mk "Keysight Technologies, N5232A ,MY51000000,A.10.49" false replies.

Definition unplugged : device :=
  mk "Agilent Technologies,E5071C,MY46100000,A.09.10" true [].

(** One window of three points around 100 Hz, 10 Hz wide. *)
Definition tm010 : Segment.t := Segment.init "TM010" 100 10 3 1000 0.

(** A second window, switched off. *)
Definition te011_off : Segment.t :=
  Segment.set_enabled false (Segment.init "TE011" 200 10 3 1000 0).

(** Marker mode, both tracking gates open; the analyzer reports the same
    readout [(bw, f0, q, il) = (0.5, 101, 202, -3)] twice. *)
Definition marker_session : VNA device :=
  mkVNA (e5071c [[0.5; 101; 202; -3]; [0.5; 101; 202; -3]])
        (VNAConfig.mk [tm010] true true true 8 None true) "E5071C" None.

(** Marker mode with the second of two windows switched off. *)
Definition marker_session_off : VNA device :=
  mkVNA (e5071c [[0.5; 100; 200; -3]; [0.5; 200; 400; -3]])
        (VNAConfig.mk [tm010; te011_off] false false true 8 None true)
        "E5071C" None.

(** Raw-sweep mode on an analyzer that answers no value query. *)
Definition raw_session_timeout : VNA device :=
  mkVNA (e5071c []) (VNAConfig.mk [tm010] true false false 8 None true)
        "E5071C" None.

(** Raw-sweep mode, frequency tracking on; the sweep [(3,4) (6,8) (5,12)]
    has magnitudes [5; 10; 13] over [95; 100; 105]: the amplitude is still
    rising at the right edge of the window. *)
Definition raw_session_rising : VNA device :=
  mkVNA (e5071c [[3; 4; 6; 8; 5; 12]; [95; 100; 105]])
        (VNAConfig.mk [tm010] true false false 8 None true) "E5071C" None.

(** The same with magnitudes [5; 10; 5]: a peak in the middle. *)
Definition raw_session_peak : VNA device :=
  mkVNA (e5071c [[3; 4; 6; 8; 3; 4]; [95; 100; 105]])
        (VNAConfig.mk [tm010; te011_off] true false false 8 None true)
        "E5071C" None.

(** Two configured windows with the same centre frequency. *)
Definition tie_config : Config.t :=
  Config.mk [("wide", Config.mk_segment 100 20 3 1000 0);
             ("narrow", Config.mk_segment 100 10 3 1000 0)]
            true false false 8.

Definition marker_config : Config.t :=
  Config.mk [("TM010", Config.mk_segment 100 10 3 1000 0)] true true true 8.

(** Marker mode on an analyzer that answers no value query. *)
Definition marker_session_timeout : VNA device :=
  mkVNA (e5071c []) (VNAConfig.mk [tm010] true true true 8 None true)
        "E5071C" None.

(** The Sample of the readout [(0.5, 101, 202, -3)]. *)
Definition readout_101 : Sample.t :=
  Sample.mk [Some 0.5] [Some 101] [Some 202] [Some (-3)] [] [].


(** The Sample of the raw sweep of [raw_session_peak]. *)
Definition sample_peak : Sample.t :=
  Sample.mk [Some (10 # 4); None] [Some 100; None] [Some (400 # 10); None]
            [Some 10; None] [Some [95; 100; 105]; None]
            [Some [5; 10; 5]; None].

(** Raw-sweep mode; the sweep reply holds three values, one and a half
    complex points. *)
Definition raw_session_odd : VNA device :=
  mkVNA (e5071c [[3; 4; 6]; [95; 100; 105]])
        (VNAConfig.mk [tm010] true false false 8 None true) "E5071C" None.

(** Marker mode; the marker reply lacks the insertion loss. *)
Definition marker_session_short : VNA device :=
  mkVNA (e5071c [[0.5; 101; 202]])
        (VNAConfig.mk [tm010] true true true 8 None true) "E5071C" None.

(** A session on the simulated N5232A. *)
Definition n5232a_session : VNA device :=
  mkVNA (n5232a []) (VNAConfig.mk [tm010; te011_off] true false false 8 None true)
        "N5232A" None.

(** An analyzer whose identity string has a single field. *)
Definition nameless : device := mk "E5071C" false [].






End Bench.

(* ------------------------------------------------------------------ *)
(** ** Vocabulary of the statements about runs *)

(** [m], started in [s], keeps the invariant [I] and only makes link calls
    that satisfy [P]. *)
Definition keeps {D} (I : VNA D -> Prop) (P : call -> Prop) {A}
  (m : M D A) (s : VNA D) : Prop :=
  I s -> I (after (m s)) /\ Forall (fun c => P (fst c)) (calls (m s)).

(** [m] has no handler: an exception the link raises on one of its calls
    is the exception [m] raises. *)
Definition propagates {D A} (m : M D A) : Prop :=
  forall s c e, In (c, Some e) (calls (m s)) -> result (m s) = Raised e.

(** The link raised on no call of the run. *)
Definition link_ok {D A} (r : run D A) : Prop :=
  Forall (fun c => snd c = None) (calls r).

(** An invariant that only looks at attributes the cycle never assigns:
    it survives a change of the link state and of the segment list. *)
Definition segment_blind {D} (I : VNA D -> Prop) : Prop :=
  (forall d s, I s -> I (with_res d s)) /\
  (forall segs s, I s -> I (with_cfg (VNAConfig.set_segments segs (cfg s)) s)).

(** Two segments that differ at most in [f0], [span] and [enabled]: the
    same window of the configuration. *)
Definition same_identity (a b : Segment.t) : Prop :=
  Segment.name a = Segment.name b /\
  Segment.f0_default a = Segment.f0_default b /\
  Segment.span_default a = Segment.span_default b /\
  Segment.points a = Segment.points b /\
  Segment.ifbw a = Segment.ifbw b /\
  Segment.power a = Segment.power b.

(** Two segments that differ at most in [f0] and [span]. *)
Definition only_retuned (a b : Segment.t) : Prop :=
  same_identity a b /\ Segment.enabled a = Segment.enabled b.

(** A segment at its configured geometry. *)
Definition at_default (seg : Segment.t) : Prop :=
  Segment.f0 seg = Segment.f0_default seg /\
  Segment.span seg = Segment.span_default seg.

(** The marker reads of a cycle over [n] segments that met no link
    error: markers 1 to [n] of channel 1, in order. *)
Definition marker_reads (n : nat) : list (call * option exn) :=
  map (fun i =>
         (QueryValues ":CALC{}:MARK{}:BWID:DATA?" [AInt 1; AInt (Z.of_nat i + 1)],
          @None exn))
      (seq 0 n).

(** [c in s] for a character. *)
Fixpoint has_char (c : ascii) (s : string) : bool :=
  match s with
  | EmptyString => false
  | String x rest => Ascii.eqb x c || has_char c rest
  end.

(** Slots that all hold a value. *)
Definition filled {A} (slots : list (option A)) : Prop :=
  Forall (fun slot => slot <> None) slots.

Definition is_write_values (c : call) : bool :=
  match c with
  | WriteValues _ _ _ => true
  | _ => false
  end.

(** What the tracking loop does to a segment it retunes: the two gated
    assignments of lines 140-143. *)
Definition retune (c : VNAConfig.t) (f b : Q) (seg : Segment.t) : Segment.t :=
  let seg1 := if VNAConfig.track_freq c then Segment.set_f0 f seg else seg in
  if VNAConfig.track_span c
  then Segment.set_span (b * VNAConfig.get_bw_factor c) seg1
  else seg1.

(** The per-segment tuples of the two segment-table encodings. *)
Definition list_tuple (s : Segment.t) : list value :=
  [VInt 1; VInt (Z.of_nat (Segment.points s)); VNum (Segment.f0 s);
   VNum (Segment.span s); VNum (Segment.ifbw s); VInt 0; VNum (Segment.power s)].

Definition data_tuple (s : Segment.t) : list value :=
  [VNum (Segment.f0 s); VNum (Segment.span s);
   VInt (Z.of_nat (Segment.points s)); VNum (Segment.ifbw s);
   VNum (Segment.power s)].

(** Result slots in the order of the segments: a slot is empty exactly
    when its segment is disabled. *)
Definition slots_of {A} (segments : list Segment.t) (slots : list (option A))
  : Prop :=
  Forall2 (fun seg slot => Segment.enabled seg = false <-> slot = None)
          segments slots.

(** Ascending and strictly ascending centre frequencies. *)
Definition f0_le (a b : Segment.t) : Prop := Segment.f0 a <= Segment.f0 b.
Definition f0_lt (a b : Segment.t) : Prop := Segment.f0 a < Segment.f0 b.

Definition not_query_values (c : call) : Prop := is_query_values c = false.
Definition not_marker_read (c : call) : Prop := is_marker_read c = false.

(* ================================================================== *)
(** * Properties *)

(** ** Numbers *)


Lemma truediv_nonzero (x y : Q) : ~ y == 0 -> truediv x y = Returned (x / y).
Proof.
  intro H. unfold truediv.
  destruct (Qeq_bool y 0) eqn:E; [|reflexivity].
  apply Qeq_bool_eq in E. contradiction.
Qed.


Lemma optQ_eqb_refl (a : option Q) : optQ_eqb a a = true.
Proof. destruct a; simpl; [apply Qeq_bool_refl | reflexivity]. Qed.

Lemma list_eqb_refl {A} (eqb : A -> A -> bool) :
  (forall a, eqb a a = true) -> forall l, list_eqb eqb l l = true.
Proof.
  intros Hr l. induction l as [|a l IH]; simpl; [reflexivity|].
  now rewrite Hr, IH.
Qed.

Lemma readout_eqb_refl (a : marker_readout) : readout_eqb a a = true.
Proof. apply list_eqb_refl. intro l. apply list_eqb_refl, optQ_eqb_refl. Qed.

Lemma readout_eqb_truthy (prev : marker_readout) (a b c : list (option Q)) :
  readout_eqb prev [a; b; c] = true -> truthy (Some prev) = true.
Proof. destruct prev; simpl; [discriminate | reflexivity]. Qed.

(* ------------------------------------------------------------------ *)
(** ** Runs: invariants, call filters, propagation *)

Section Runs.

Context {D : Type} {link : ScpiLink D}.

Variable I : VNA D -> Prop.
Variable P : call -> Prop.

Lemma keeps_ret {A} (a : A) s : keeps I P (ret a) s.
Proof. intro H. split; [exact H | constructor]. Qed.

Lemma keeps_raise {A} e s : keeps I P (@raise D A e) s.
Proof. intro H. split; [exact H | constructor]. Qed.

Lemma keeps_lift {A} (o : outcome A) s : keeps I P (lift o) s.
Proof. intro H. split; [exact H | constructor]. Qed.

Lemma keeps_modify f s : (I s -> I (f s)) -> keeps I P (modify f) s.
Proof. intros Hf H. split; [exact (Hf H) | constructor]. Qed.

Lemma keeps_on_link {A} c (op : D -> outcome A * D) s :
  (forall d, I s -> I (with_res d s)) -> P c -> keeps I P (on_link c op) s.
Proof.
  intros Hres Hc H. unfold on_link. destruct (op (res s)) as [o d]. simpl.
  split; [exact (Hres d H) | repeat constructor; exact Hc].
Qed.

Lemma keeps_bind {A B} (m : M D A) (k : A -> M D B) s :
  keeps I P m s ->
  (forall a, result (m s) = Returned a -> keeps I P (k a) (after (m s))) ->
  keeps I P (bind m k) s.
Proof.
  intros Hm Hk H. destruct (Hm H) as [Hi Hc]. unfold bind.
  destruct (result (m s)) as [a|e] eqn:E; simpl.
  - destruct (Hk a eq_refl Hi) as [Hi' Hc']. split; [exact Hi'|].
    apply Forall_app. split; assumption.
  - split; assumption.
Qed.

Lemma keeps_get_bind {B} (k : VNA D -> M D B) s :
  keeps I P (k s) s -> keeps I P (bind get k) s.
Proof.
  intro Hk. apply keeps_bind.
  - intro H. split; [exact H | constructor].
  - simpl. intros a Ha. inversion Ha. subst a. exact Hk.
Qed.

Lemma keeps_except_visa {A} (m : M D A) s : keeps I P m s -> keeps I P (except_visa m) s.
Proof.
  intros Hm H. destruct (Hm H) as [Hi Hc]. unfold except_visa.
  destruct (result (m s)) as [a|[]]; simpl; split; assumption.
Qed.

End Runs.

Lemma keeps_weaken {D} (I : VNA D -> Prop) (P P' : call -> Prop) {A}
  (m : M D A) s :
  (forall c, P c -> P' c) -> keeps I P m s -> keeps I P' m s.
Proof.
  intros Himp Hm H. destruct (Hm H) as [Hi Hc]. split; [exact Hi|].
  eapply Forall_impl; [|exact Hc]. intros c. apply Himp.
Qed.

Lemma not_query_values_marker c : not_query_values c -> not_marker_read c.
Proof. destruct c; simpl; unfold not_query_values, not_marker_read; simpl; congruence. Qed.


(** One step through a method body, for an invariant that survives a
    change of the link state ([Hres]) and of the segment list ([Hsegs]). *)
Ltac run_step Hres Hsegs :=
  lazymatch goal with
  | |- keeps _ _ (bind get _) _ => apply keeps_get_bind
  | |- keeps _ _ (bind _ _) _ => apply keeps_bind; [| intros ? _]
  | |- keeps _ _ (ret _) _ => apply keeps_ret
  | |- keeps _ _ (raise _) _ => apply keeps_raise
  | |- keeps _ _ (lift _) _ => apply keeps_lift
  | |- keeps _ _ (on_link _ _) _ =>
      apply keeps_on_link;
      [intros ?; exact (Hres _ _) | first [reflexivity | exact Logic.I]]
  | |- keeps _ _ (modify _) _ => apply keeps_modify; exact (Hsegs _ _)
  end.

Ltac run_steps Hres Hsegs := repeat run_step Hres Hsegs.

(* ------------------------------------------------------------------ *)
(** ** What a cycle leaves alone *)

Section LinkFrames.

Context {D : Type} {link : ScpiLink D} {num : Numerics}.

Variable I : VNA D -> Prop.
Hypothesis I_res : forall d s, I s -> I (with_res d s).

Lemma keeps_write t a s : keeps I not_query_values (res_write t a) s.
Proof. unfold res_write. run_step I_res tt. Qed.

Lemma keeps_query t a s : keeps I not_query_values (res_query t a) s.
Proof. unfold res_query. run_step I_res tt. Qed.

Lemma keeps_set_segments segs ch s :
  keeps I not_query_values (set_segments segs ch) s.
Proof.
  unfold set_segments, res_write, res_write_ascii_values.
  apply keeps_get_bind. destruct (is_N5232A s); run_steps I_res tt.
Qed.

Lemma keeps_trigger s : keeps I not_query_values trigger s.
Proof.
  unfold trigger, res_write, res_query. apply keeps_get_bind.
  destruct (negb _); [destruct (is_N5232A s)|]; run_steps I_res tt.
Qed.

Lemma keeps_read_sweep s : keeps I not_marker_read read_sweep s.
Proof.
  unfold read_sweep, get_sweep_data, get_freq_data, res_query_ascii_values.
  apply keeps_bind.
  - apply keeps_get_bind. destruct (is_N5232A s); run_steps I_res tt.
  - intros raw _. apply keeps_bind; [apply keeps_lift|]. intros cplx _.
    apply keeps_bind; [|intros; apply keeps_ret].
    apply keeps_get_bind. destruct (is_N5232A _); run_steps I_res tt.
Qed.

Lemma keeps_read_markers idx data s :
  keeps I (fun _ => True) (read_markers idx data) s.
Proof.
  revert data s. induction idx as [|i idx IH]; intros data s; simpl.
  - apply keeps_ret.
  - apply keeps_bind.
    + unfold get_marker_data, res_query_ascii_values.
      run_step I_res tt.
    + intros vals _.
      destruct vals as [|? [|? [|? [|? [|? ?]]]]]; try apply keeps_raise. apply IH.
Qed.

End LinkFrames.

Section Frames.

Context {D : Type} {link : ScpiLink D} {num : Numerics}.

Variable I : VNA D -> Prop.
Hypothesis I_blind : segment_blind I.

Lemma keeps_store_segments (P : call -> Prop) segs s :
  keeps I P (store_segments segs) s.
Proof. unfold store_segments. run_step (proj1 I_blind) (proj2 I_blind). Qed.

Lemma keeps_retrack data s : keeps I not_query_values (retrack data) s.
Proof.
  unfold retrack. apply keeps_get_bind.
  destruct (_ && _); [|apply keeps_ret].
  apply keeps_bind; [apply keeps_store_segments|]. intros _ _.
  apply keeps_bind; [apply keeps_lift|]. intros [|] _; [|apply keeps_ret].
  apply keeps_get_bind.
  apply keeps_bind; [(apply keeps_set_segments; exact (proj1 I_blind))|]. intros _ _.
  destruct (VNAConfig.use_markers _); [|apply keeps_ret].
  unfold res_write, res_query.
  destruct (is_N5232A _); run_steps (proj1 I_blind) (proj2 I_blind).
Qed.

Lemma keeps_fit_sweep freq ampl s :
  keeps I not_query_values (fit_sweep freq ampl) s.
Proof.
  unfold fit_sweep. apply keeps_get_bind.
  apply keeps_bind; [apply keeps_store_segments|]. intros _ _.
  apply keeps_bind; [apply keeps_lift|]. intros [d [|]] _; simpl; [|apply keeps_ret].
  apply keeps_get_bind.
  apply keeps_bind; [|intros; apply keeps_ret].
  destruct (_ && _); [(apply keeps_set_segments; exact (proj1 I_blind)) | apply keeps_ret].
Qed.

Lemma keeps_acquire_raw s : keeps I not_marker_read acquire_raw s.
Proof.
  unfold acquire_raw. apply keeps_bind; [(apply keeps_read_sweep; exact (proj1 I_blind))|].
  intros sweep _. eapply keeps_weaken; [|apply keeps_fit_sweep].
  apply not_query_values_marker.
Qed.

Hypothesis I_last : forall l s, I s -> I (with_last_sample l s).

Lemma keeps_acquire_markers s : keeps I (fun _ => True) acquire_markers s.
Proof.
  unfold acquire_markers. apply keeps_get_bind.
  apply keeps_bind; [apply keeps_except_visa; apply keeps_read_markers; exact (proj1 I_blind)|].
  intros [data|] _; [|apply keeps_ret].
  apply keeps_get_bind. destruct (_ && _); [apply keeps_ret|].
  apply keeps_bind; [|intros; apply keeps_ret].
  apply keeps_modify. apply I_last.
Qed.

Lemma keeps_sample elapsed s : keeps I (fun _ => True) (sample elapsed) s.
Proof.
  unfold sample.
  apply keeps_bind;
    [eapply keeps_weaken; [|(apply keeps_trigger; exact (proj1 I_blind))]; exact (fun _ _ => Logic.I)|].
  intros _ _. apply keeps_get_bind.
  apply keeps_bind.
  - destruct (VNAConfig.use_markers _); [apply keeps_acquire_markers|].
    eapply keeps_weaken; [|apply keeps_acquire_raw]. exact (fun _ _ => Logic.I).
  - intros [data|] _; [|apply keeps_ret].
    apply keeps_bind; [|intros; apply keeps_ret].
    eapply keeps_weaken; [|apply keeps_retrack]. exact (fun _ _ => Logic.I).
Qed.

End Frames.

(* ------------------------------------------------------------------ *)
(** ** What a session leaves alone *)

Section SessionFrames.

Context {D : Type} {link : ScpiLink D} {num : Numerics}.

Variable I : VNA D -> Prop.
Hypothesis I_blind : segment_blind I.
Hypothesis I_last : forall l s, I s -> I (with_last_sample l s).
Hypothesis I_track :
  forall b s, I s -> I (with_cfg (VNAConfig.set_track_enabled b (cfg s)) s).

Lemma keeps_set_segment_enabled i b s :
  keeps I not_query_values (set_segment_enabled i b) s.
Proof.
  unfold set_segment_enabled. apply keeps_get_bind.
  destruct (nth_error _ i); [|apply keeps_raise].
  apply keeps_bind; [apply keeps_store_segments; exact I_blind|]. intros _ _.
  apply keeps_get_bind. apply keeps_set_segments. exact (proj1 I_blind).
Qed.

Lemma keeps_reset_tracking s : keeps I not_query_values reset_tracking s.
Proof.
  unfold reset_tracking. apply keeps_get_bind.
  apply keeps_bind; [apply keeps_store_segments; exact I_blind|]. intros _ _.
  apply keeps_get_bind. apply keeps_set_segments. exact (proj1 I_blind).
Qed.

Lemma keeps_set_tracking_override (P : call -> Prop) b s :
  keeps I P (set_tracking_override b) s.
Proof. unfold set_tracking_override. apply keeps_modify. apply I_track. Qed.

(** Every request but an override of the bandwidth factor. *)
Lemma keeps_perform r s :
  is_override r = false -> keeps I (fun _ => True) (perform r) s.
Proof.
  destruct r as [e|i b|f|b|]; simpl; intro Hr; try discriminate.
  - apply keeps_bind; [apply keeps_sample; assumption | intros; apply keeps_ret].
  - eapply keeps_weaken; [|apply keeps_set_segment_enabled]. exact (fun _ _ => Logic.I).
  - apply keeps_set_tracking_override.
  - eapply keeps_weaken; [|apply keeps_reset_tracking]. exact (fun _ _ => Logic.I).
Qed.

Lemma after_all_keeps rs s :
  forallb (fun r => negb (is_override r)) rs = true -> I s -> I (after_all rs s).
Proof.
  revert s. induction rs as [|r rs IH]; intros s Hrs Hs; simpl in *; [exact Hs|].
  apply andb_true_iff in Hrs. destruct Hrs as [Hr Hrs].
  apply IH; [exact Hrs|].
  apply negb_true_iff in Hr.
  exact (proj1 (@keeps_perform r s Hr Hs)).
Qed.

(** In raw-sweep mode the cycle never reads a marker register. *)
Hypothesis I_raw : forall s, I s -> VNAConfig.use_markers (cfg s) = false.

Lemma keeps_sample_raw elapsed s : keeps I not_marker_read (sample elapsed) s.
Proof.
  unfold sample.
  apply keeps_bind;
    [eapply keeps_weaken; [|apply keeps_trigger; exact (proj1 I_blind)];
     apply not_query_values_marker|].
  intros _ _. apply keeps_get_bind. intro Hs.
  rewrite (I_raw Hs). revert Hs.
  apply keeps_bind; [apply keeps_acquire_raw; exact I_blind|].
  intros [data|] _; [|apply keeps_ret].
  apply keeps_bind; [|intros; apply keeps_ret].
  eapply keeps_weaken; [|apply keeps_retrack; exact I_blind].
  apply not_query_values_marker.
Qed.

Hypothesis I_override :
  forall f s, I s -> I (with_cfg (VNAConfig.set_bw_factor_override f (cfg s)) s).

Lemma keeps_perform_raw r s : keeps I not_marker_read (perform r) s.
Proof.
  destruct r as [e|i b|f|b|]; simpl.
  - apply keeps_bind; [apply keeps_sample_raw | intros; apply keeps_ret].
  - eapply keeps_weaken; [|apply keeps_set_segment_enabled].
    apply not_query_values_marker.
  - unfold set_bw_factor_override. apply keeps_modify. apply I_override.
  - apply keeps_set_tracking_override.
  - eapply keeps_weaken; [|apply keeps_reset_tracking].
    apply not_query_values_marker.
Qed.

Lemma after_all_keeps_raw rs s : I s -> I (after_all rs s).
Proof.
  revert s. induction rs as [|r rs IH]; intros s Hs; simpl; [exact Hs|].
  apply IH. exact (proj1 (@keeps_perform_raw r s Hs)).
Qed.

End SessionFrames.

(* ------------------------------------------------------------------ *)
(** ** The sort of [VNAConfig.__init__] *)

Lemma insert_by_f0_perm s l : Permutation (s :: l) (VNAConfig.insert_by_f0 s l).
Proof.
  induction l as [|h t IH]; simpl; [reflexivity|].
  destruct (Qle_bool _ _); [reflexivity|].
  rewrite perm_swap. now apply perm_skip.
Qed.

Lemma sort_by_f0_perm l : Permutation l (VNAConfig.sort_by_f0 l).
Proof.
  induction l as [|s t IH]; simpl; [constructor|].
  etransitivity; [apply perm_skip, IH | apply insert_by_f0_perm].
Qed.

Lemma insert_by_f0_hd s l x :
  HdRel f0_le x l -> f0_le x s -> HdRel f0_le x (VNAConfig.insert_by_f0 s l).
Proof.
  intros Hl Hs. destruct l as [|h t]; simpl; [now constructor|].
  destruct (Qle_bool _ _); constructor; [exact Hs|].
  now inversion Hl.
Qed.

Lemma insert_by_f0_sorted s l :
  Sorted f0_le l -> Sorted f0_le (VNAConfig.insert_by_f0 s l).
Proof.
  induction 1 as [|h t Ht IH Hh]; simpl; [repeat constructor|].
  destruct (Qle_bool (Segment.f0 s) (Segment.f0 h)) eqn:E.
  - apply Qle_bool_iff in E. repeat constructor; assumption.
  - constructor; [exact IH|].
    apply insert_by_f0_hd; [exact Hh|].
    unfold f0_le. apply Qlt_le_weak, Qnot_le_lt. intro Hle.
    apply Qle_bool_iff in Hle. congruence.
Qed.

Lemma sort_by_f0_sorted l : Sorted f0_le (VNAConfig.sort_by_f0 l).
Proof.
  induction l as [|s t IH]; simpl; [constructor|].
  now apply insert_by_f0_sorted.
Qed.

(* ------------------------------------------------------------------ *)
(** ** setup *)

Section Setup.

Context {D : Type} {link : ScpiLink D}.

Lemma bind_result_inv {A B} (m : M D A) (k : A -> M D B) s b :
  result (bind m k s) = Returned b ->
  exists a, result (m s) = Returned a /\
            result (k a (after (m s))) = Returned b /\
            after (bind m k s) = after (k a (after (m s))).
Proof.
  unfold bind. destruct (result (m s)) as [a|e]; simpl; [|discriminate].
  intro H. exists a. auto.
Qed.

(** [setup] assigns [cfg] first and later only touches [use_markers],
    [model], [last_sample] and the link. *)
Lemma setup_frame (I : VNA D -> Prop) :
  (forall d s, I s -> I (with_res d s)) ->
  (forall m s, I s -> I (with_model m s)) ->
  (forall l s, I s -> I (with_last_sample l s)) ->
  (forall s, I s -> I (with_cfg (VNAConfig.set_use_markers false (cfg s)) s)) ->
  forall config s,
    I (with_cfg (VNAConfig.init config) s) -> I (after (setup config s)).
Proof.
  intros Hres Hmodel Hlast Hum config s Hs.
  unfold setup.
  match goal with
  | |- I (after (bind (modify ?f) ?k s)) => change (I (after (k tt (f s))))
  end.
  cbv beta.
  match goal with
  | |- I (after (?m ?s')) =>
      cut (keeps I (fun _ => True) m s'); [intro K; exact (proj1 (K Hs))|]
  end.
  clear Hs.
  unfold set_segments.
  unfold res_reset, res_query, res_write, res_write_ascii_values.
  repeat
    lazymatch goal with
    | |- keeps _ _ (bind get _) _ => apply keeps_get_bind
    | |- keeps _ _ (bind _ _) ?st =>
        apply keeps_bind; [| intros ? _; try (generalize (after st); intro)]
    | |- keeps _ _ (ret _) _ => apply keeps_ret
    | |- keeps _ _ (lift _) _ => apply keeps_lift
    | |- keeps _ _ (on_link _ _) _ =>
        apply keeps_on_link; [intros ?; apply Hres | exact Logic.I]
    | |- keeps _ _ (modify _) _ => apply keeps_modify; auto
    | |- keeps _ _ (if ?b then _ else _) _ => destruct b
    end.
Qed.

End Setup.

(** Steps through a body that only calls the link and assigns attributes
    the invariant does not look at. *)
Ltac frame_steps :=
  repeat
    lazymatch goal with
    | |- keeps _ _ (bind get _) _ => apply keeps_get_bind
    | |- keeps _ _ (bind _ _) _ => apply keeps_bind; [| intros ? _]
    | |- keeps _ _ (ret _) _ => apply keeps_ret
    | |- keeps _ _ (lift _) _ => apply keeps_lift
    | |- keeps _ _ (on_link _ _) _ =>
        apply keeps_on_link; [intros ?; simpl; auto | exact Logic.I]
    | |- keeps _ _ (modify _) _ => apply keeps_modify; simpl; auto
    | |- keeps _ _ (if ?b then _ else _) _ => destruct b
    end.

Section SetupModel.

Context {D : Type} {link : ScpiLink D}.

Local Open Scope string_scope.

(** When [setup] returns, [model] is what it parsed from the identity
    string, and on the N5232A [use_markers] has been cleared. *)
Lemma setup_returned_n5232a (config : Config.t) (s : VNA D) :
  result (setup config s) = Returned tt ->
  model (after (setup config s)) = "N5232A" ->
  VNAConfig.use_markers (cfg (after (setup config s))) = false.
Proof.
  unfold setup. intros Hret Hmodel.
  repeat
    match type of Hret with
    | result (bind ?m ?k ?st) = _ =>
        lazymatch m with
        | (if _ then _ else _) => fail
        | _ =>
            let a := fresh "a" in
            let Ha := fresh "Ha" in
            let Haft := fresh "Haft" in
            destruct (bind_result_inv m k st Hret) as (a & Ha & Hret' & Haft);
            rewrite Haft in *; clear Haft Hret Ha; rename Hret' into Hret;
            cbv beta in *
        end
    end.
  clear Hret.
  match type of Hmodel with
  | model (after (_ (after (modify (with_model ?m) ?st)))) = _ =>
      change (after (modify (with_model m) st)) with (with_model m st) in *;
      set (s5 := st) in *; clearbody s5; rename m into parsed
  end.
  assert (Hm : parsed = "N5232A").
  { rewrite <- Hmodel. symmetry.
    match goal with
    | |- model (after (?body ?s0)) = _ =>
        cut (keeps (fun s => model s = parsed) (fun _ => True) body s0);
        [intro K; exact (proj1 (K eq_refl))|]
    end.
    unfold set_segments.
    unfold res_reset, res_query, res_write, res_write_ascii_values.
    frame_steps. }
  subst parsed. clear Hmodel.
  rewrite String.eqb_refl.
  match goal with
  | |- VNAConfig.use_markers (cfg (after (bind (modify ?f) ?k ?s0))) = _ =>
      change (VNAConfig.use_markers (cfg (after (k tt (f s0)))) = false);
      cbv beta;
      match goal with
      | |- VNAConfig.use_markers (cfg (after (?body ?s1))) = _ =>
          cut (keeps (fun s => VNAConfig.use_markers (cfg s) = false)
                     (fun _ => True) body s1);
          [intro K; exact (proj1 (K eq_refl))|]
      end
  end.
  unfold set_segments.
  unfold res_reset, res_query, res_write, res_write_ascii_values.
  frame_steps.
Qed.

End SetupModel.

(* ------------------------------------------------------------------ *)
(** ** Equations of runs *)

Section RunEquations.

Context {D : Type} {link : ScpiLink D}.

Lemma run_eta {A} (r : run D A) : mkRun (result r) (after r) (calls r) = r.
Proof. destruct r. reflexivity. Qed.

Lemma bind_pure {A B} (m : M D A) (k : A -> M D B) s a :
  m s = mkRun (Returned a) s [] -> bind m k s = k a s.
Proof. intro H. unfold bind. rewrite H. simpl. apply run_eta. Qed.


Lemma bind_get {B} (k : VNA D -> M D B) s : bind get k s = k s s.
Proof. now apply bind_pure. Qed.


Lemma bind_modify {B} f (k : unit -> M D B) s :
  bind (modify f) k s = k tt (f s).
Proof. unfold bind. simpl. apply run_eta. Qed.

Lemma bind_returned {A B} (m : M D A) (k : A -> M D B) s a s1 c1 :
  m s = mkRun (Returned a) s1 c1 ->
  bind m k s = mkRun (result (k a s1)) (after (k a s1)) (c1 ++ calls (k a s1)).
Proof. intro H. unfold bind. rewrite H. reflexivity. Qed.

Lemma bind_raised {A B} (m : M D A) (k : A -> M D B) s e s1 c1 :
  m s = mkRun (Raised e) s1 c1 -> bind m k s = mkRun (Raised e) s1 c1.
Proof. intro H. unfold bind. rewrite H. reflexivity. Qed.

Lemma bind_result_returned {A B} (m : M D A) (k : A -> M D B) s a :
  result (m s) = Returned a ->
  result (bind m k s) = result (k a (after (m s))) /\
  after (bind m k s) = after (k a (after (m s))) /\
  calls (bind m k s) = calls (m s) ++ calls (k a (after (m s))).
Proof. intro H. unfold bind. rewrite H. auto. Qed.

Lemma bind_result_raised {A B} (m : M D A) (k : A -> M D B) s e :
  result (m s) = Raised e ->
  result (bind m k s) = Raised e /\
  after (bind m k s) = after (m s) /\
  calls (bind m k s) = calls (m s).
Proof. intro H. unfold bind. rewrite H. auto. Qed.

End RunEquations.

(* ------------------------------------------------------------------ *)
(** ** Where a link error goes *)

Section Propagation.

Context {D : Type} {link : ScpiLink D} {num : Numerics}.

Lemma propagates_ret {A} (a : A) : propagates (@ret D A a).
Proof. intros s c e []. Qed.

Lemma propagates_raise {A} e : propagates (@raise D A e).
Proof. intros s c e' []. Qed.

Lemma propagates_lift {A} (o : outcome A) : propagates (@lift D A o).
Proof. intros s c e []. Qed.

Lemma propagates_get : propagates (@get D).
Proof. intros s c e []. Qed.

Lemma propagates_modify f : propagates (@modify D f).
Proof. intros s c e []. Qed.

Lemma propagates_on_link {A} c (op : D -> outcome A * D) :
  propagates (on_link c op).
Proof.
  intros s c' e. unfold on_link. destruct (op (res s)) as [o d]. simpl.
  intros [H|[]]. inversion H. destruct o; simpl in *; congruence.
Qed.

Lemma propagates_bind {A B} (m : M D A) (k : A -> M D B) :
  propagates m -> (forall a, propagates (k a)) -> propagates (bind m k).
Proof.
  intros Hm Hk s c e. unfold bind.
  destruct (result (m s)) as [a|e0] eqn:E; simpl.
  - intro H. apply in_app_or in H. destruct H as [H|H].
    + apply Hm in H. congruence.
    + now apply Hk in H.
  - intro H. apply Hm in H. congruence.
Qed.

Lemma propagates_if {A} (b : bool) (m1 m2 : M D A) :
  propagates m1 -> propagates m2 -> propagates (if b then m1 else m2).
Proof. destruct b; auto. Qed.

Lemma propagates_get_bind {B} (k : VNA D -> M D B) :
  (forall s, propagates (k s)) -> propagates (bind get k).
Proof. intro H. apply propagates_bind; [apply propagates_get | exact H]. Qed.

Ltac propagate :=
  repeat
    first
      [ apply propagates_ret | apply propagates_raise | apply propagates_lift
      | apply propagates_get | apply propagates_modify
      | apply propagates_on_link
      | apply propagates_if
      | apply propagates_bind; [| intros ?] ].

Lemma propagates_set_segments segs ch : propagates (set_segments segs ch).
Proof.
  unfold set_segments, res_write, res_write_ascii_values.
  apply propagates_get_bind. intro s. propagate.
Qed.

Lemma propagates_setup config : propagates (setup config).
Proof.
  unfold setup, res_reset, res_query, res_write.
  repeat
    first
      [ apply propagates_set_segments
      | apply propagates_ret | apply propagates_lift
      | apply propagates_modify | apply propagates_get
      | apply propagates_on_link
      | apply propagates_if
      | apply propagates_bind; [| intros ?] ].
Qed.

Lemma propagates_read_markers idx data : propagates (read_markers idx data).
Proof.
  revert data. induction idx as [|i idx IH]; intro data; simpl.
  - apply propagates_ret.
  - apply propagates_bind.
    + unfold get_marker_data, res_query_ascii_values. apply propagates_on_link.
    + intros [|? [|? [|? [|? [|? ?]]]]]; try apply propagates_raise. apply IH.
Qed.

Lemma propagates_match_option {A B} (o : option A) (m : M D B)
  (k : A -> M D B) :
  propagates m -> (forall a, propagates (k a)) ->
  propagates (match o with None => m | Some a => k a end).
Proof. destruct o; auto. Qed.

Lemma propagates_trigger : propagates (@trigger D link).
Proof.
  unfold trigger, res_write, res_query.
  apply propagates_get_bind. intro s. propagate.
Qed.

Lemma propagates_read_sweep : propagates (@read_sweep D link num).
Proof.
  unfold read_sweep, get_sweep_data, get_freq_data, res_query_ascii_values.
  apply propagates_bind; [apply propagates_get_bind; intro s; propagate|].
  intros raw. apply propagates_bind; [apply propagates_lift|].
  intros cplx. apply propagates_bind; [|intros; apply propagates_ret].
  apply propagates_get_bind. intro s. propagate.
Qed.

Lemma propagates_fit_sweep freq ampl : propagates (@fit_sweep D link num freq ampl).
Proof.
  unfold fit_sweep, store_segments.
  apply propagates_get_bind. intro s. cbv zeta.
  apply propagates_bind; [apply propagates_modify|]. intros _.
  apply propagates_bind; [apply propagates_lift|]. intros r.
  apply propagates_if; [|apply propagates_ret].
  apply propagates_get_bind. intro s'.
  apply propagates_bind; [|intros; apply propagates_ret].
  apply propagates_if; [apply propagates_set_segments | apply propagates_ret].
Qed.

Lemma propagates_retrack data : propagates (@retrack D link data).
Proof.
  unfold retrack, store_segments, res_write, res_query.
  apply propagates_get_bind. intro s. cbv zeta.
  apply propagates_if; [|apply propagates_ret].
  apply propagates_bind; [apply propagates_modify|]. intros _.
  apply propagates_bind; [apply propagates_lift|]. intros retracked.
  apply propagates_if; [|apply propagates_ret].
  apply propagates_get_bind. intro s'.
  apply propagates_bind; [apply propagates_set_segments|]. intros _.
  propagate.
Qed.

Lemma bind_ext_after {A B} (m : M D A) (k k' : A -> M D B) s :
  (forall a, k a (after (m s)) = k' a (after (m s))) ->
  bind m k s = bind m k' s.
Proof.
  intro H. unfold bind. destruct (result (m s)); [rewrite H|]; reflexivity.
Qed.

(** In raw-sweep mode a cycle is the trigger, the raw-sweep branch and
    tracking, none of them under a handler. *)
Lemma sample_raw elapsed (s : VNA D) :
  VNAConfig.use_markers (cfg s) = false ->
  sample elapsed s =
  bind trigger
    (fun _ =>
       bind acquire_raw
         (fun acquired =>
            match acquired with
            | None => ret None
            | Some data => bind (retrack data) (fun _ => ret (Some data))
            end)) s.
Proof.
  intro H. unfold sample. apply bind_ext_after. intros _.
  rewrite bind_get.
  assert (Hc : cfg (after (trigger s)) = cfg s).
  { refine (proj1 (@keeps_trigger _ _ (fun s' => cfg s' = cfg s) _ s eq_refl)).
    intros d s' E. exact E. }
  now rewrite Hc, H.
Qed.

Lemma propagates_sample_raw elapsed (s : VNA D) c e :
  VNAConfig.use_markers (cfg s) = false ->
  In (c, Some e) (calls (sample elapsed s)) ->
  result (sample elapsed s) = Raised e.
Proof.
  intro H. rewrite (sample_raw elapsed s H). revert s c e H.
  match goal with
  | |- forall s c e, _ -> In _ (calls (?m s)) -> _ =>
      cut (propagates m); [intros P s c e _; apply P|]
  end.
  apply propagates_bind; [apply propagates_trigger|]. intros _.
  apply propagates_bind.
  - unfold acquire_raw.
    apply propagates_bind; [apply propagates_read_sweep|].
    intros sweep. apply propagates_fit_sweep.
  - intros [data|]; [|apply propagates_ret].
    apply propagates_bind; [apply propagates_retrack | intros; apply propagates_ret].
Qed.

End Propagation.

(* ------------------------------------------------------------------ *)
(** ** The marker branch *)

Section MarkerMode.

Context {D : Type} {link : ScpiLink D} {num : Numerics}.

Lemma trigger_markers (s : VNA D) :
  VNAConfig.use_markers (cfg s) = true -> trigger s = mkRun (Returned tt) s [].
Proof. intro H. unfold trigger. rewrite bind_get, H. reflexivity. Qed.

(** In marker mode a cycle is the marker branch followed by tracking. *)
Lemma sample_markers elapsed (s : VNA D) :
  VNAConfig.use_markers (cfg s) = true ->
  sample elapsed s =
  bind acquire_markers
    (fun acquired =>
       match acquired with
       | None => ret None
       | Some data => bind (retrack data) (fun _ => ret (Some data))
       end) s.
Proof.
  intro H. unfold sample.
  rewrite (bind_pure _ _ (trigger_markers s H)), bind_get, H. reflexivity.
Qed.

(** The marker loop only talks to the link. *)
Lemma read_markers_frame idx data (s : VNA D) :
  cfg (after (read_markers idx data s)) = cfg s /\
  model (after (read_markers idx data s)) = model s /\
  last_sample (after (read_markers idx data s)) = last_sample s.
Proof.
  assert (K : keeps (fun s' => cfg s' = cfg s /\ model s' = model s /\
                               last_sample s' = last_sample s)
                    (fun _ => True) (read_markers idx data) s).
  { revert data. generalize s at 4 as s0.
    induction idx as [|i idx IH]; intros s0 data; simpl.
    - apply keeps_ret.
    - apply keeps_bind.
      + unfold get_marker_data, res_query_ascii_values.
        apply keeps_on_link; [intros d; exact (fun H => H) | exact Logic.I].
      + intros vals _.
        destruct vals as [|? [|? [|? [|? [|? ?]]]]]; try apply keeps_raise.
        apply IH. }
  exact (proj1 (K (conj eq_refl (conj eq_refl eq_refl)))).
Qed.

(** The four ways the marker branch ends. *)
Lemma acquire_markers_cases (s : VNA D) :
  let rm :=
    read_markers (seq 0 (List.length (VNAConfig.segments (cfg s)))) Sample.init s in
  acquire_markers s =
  match result rm with
  | Returned data =>
      let arr := [Sample.bw data; Sample.f0 data; Sample.q data] in
      if truthy (last_sample s) &&
         match last_sample s with
         | Some prev => readout_eqb prev arr
         | None => false
         end
      then mkRun (Returned None) (after rm) (calls rm)
      else mkRun (Returned (Some data))
                 (with_last_sample (Some arr) (after rm)) (calls rm)
  | Raised VisaIOError => mkRun (Returned None) (after rm) (calls rm)
  | Raised e => mkRun (Raised e) (after rm) (calls rm)
  end.
Proof.
  intro rm. unfold acquire_markers. rewrite bind_get.
  destruct (read_markers_frame
              (seq 0 (List.length (VNAConfig.segments (cfg s)))) Sample.init s)
    as (_ & _ & Hlast).
  unfold bind at 1, except_visa. fold rm in Hlast |- *. clearbody rm.
  destruct rm as [[data|e] s1 c1]; simpl in *.
  - rewrite Hlast.
    destruct (truthy (last_sample s) && _); simpl; rewrite ?app_nil_r; reflexivity.
  - destruct e; simpl; rewrite ?app_nil_r; reflexivity.
Qed.

(** A stale readout: the cycle ends after the marker reads. *)
Lemma sample_stale elapsed (s : VNA D) data prev :
  VNAConfig.use_markers (cfg s) = true ->
  result (read_markers (seq 0 (List.length (VNAConfig.segments (cfg s))))
            Sample.init s) = Returned data ->
  last_sample s = Some prev ->
  readout_eqb prev [Sample.bw data; Sample.f0 data; Sample.q data] = true ->
  let rm :=
    read_markers (seq 0 (List.length (VNAConfig.segments (cfg s)))) Sample.init s in
  sample elapsed s = mkRun (Returned None) (after rm) (calls rm) /\
  last_sample (after rm) = Some prev.
Proof.
  intros Hum Hrm Hprev Heq rm. split.
  - rewrite (sample_markers elapsed s Hum).
    unfold bind. rewrite (acquire_markers_cases s). cbv zeta. fold rm.
    fold rm in Hrm. rewrite Hrm, Hprev, Heq.
    rewrite (readout_eqb_truthy _ _ _ _ Heq). simpl. now rewrite app_nil_r.
  - unfold rm. rewrite (proj2 (proj2 (read_markers_frame _ _ s))). exact Hprev.
Qed.

(** An accepted readout is what the next cycle compares with. *)
Lemma sample_accepted elapsed (s : VNA D) data :
  VNAConfig.use_markers (cfg s) = true ->
  result (sample elapsed s) = Returned (Some data) ->
  last_sample (after (sample elapsed s)) =
    Some [Sample.bw data; Sample.f0 data; Sample.q data] /\
  VNAConfig.use_markers (cfg (after (sample elapsed s))) = true.
Proof.
  intros Hum. rewrite (sample_markers elapsed s Hum).
  unfold bind. rewrite (acquire_markers_cases s). cbv zeta.
  destruct (read_markers_frame
              (seq 0 (List.length (VNAConfig.segments (cfg s)))) Sample.init s)
    as (Hcfg & _ & _).
  set (rm := read_markers _ _ s) in *. clearbody rm.
  destruct rm as [[d|e] s1 c1]; cbn [result after calls] in Hcfg |- *.
  - destruct (truthy (last_sample s) && _); cbn [result after calls];
      [discriminate|].
    set (s2 := with_last_sample _ s1).
    assert (K : keeps (fun s' => last_sample s' =
                                   Some [Sample.bw d; Sample.f0 d; Sample.q d] /\
                                 VNAConfig.use_markers (cfg s') = true)
                      not_query_values (retrack d) s2).
    { apply keeps_retrack. split; intros ? ? H; exact H. }
    destruct K as [[Hl Hu] _].
    { split; [reflexivity|]. simpl. now rewrite Hcfg. }
    destruct (result (retrack d s2)); cbn [result after calls ret];
      [|discriminate].
    intro H. inversion H. subst d. split; assumption.
  - destruct e; cbn [result after calls]; discriminate.
Qed.

End MarkerMode.

(* ================================================================== *)
(** * The claims of the design document *)

Section Claims.

Context {D : Type} {link : ScpiLink D} {num : Numerics}.

Local Open Scope string_scope.

(** C4.  In marker mode, when the [(bw, f0, q)] sequences read in a cycle
    equal those of the Sample accepted by the previous cycle, the cycle
    returns no result right after the marker reads and the staleness cache
    still holds the accepted readout: two consecutive identical readouts
    give one Sample and one no-result. *)
Theorem marker_staleness (e0 e1 : Q) (s0 : VNA D) (d0 data : Sample.t) :
  VNAConfig.use_markers (cfg s0) = true ->
  result (sample e0 s0) = Returned (Some d0) ->
  let s := after (sample e0 s0) in
  let rm :=
    read_markers (seq 0 (List.length (VNAConfig.segments (cfg s)))) Sample.init s in
  result rm = Returned data ->
  readout_eqb [Sample.bw d0; Sample.f0 d0; Sample.q d0]
              [Sample.bw data; Sample.f0 data; Sample.q data] = true ->
  sample e1 s = mkRun (Returned None) (after rm) (calls rm) /\
  last_sample (after (sample e1 s)) =
    Some [Sample.bw d0; Sample.f0 d0; Sample.q d0].
Proof.
  intros Hum Hacc s rm Hrm Heq.
  destruct (sample_accepted e0 s0 Hum Hacc) as [Hlast Hum'].
  destruct (sample_stale e1 s Hum' Hrm Hlast Heq) as [Hrun Hkept].
  split; [exact Hrun|]. rewrite Hrun. exact Hkept.
Qed.

(** C7 (amended).  Whatever the order of the configured segment map,
    [setup] leaves the same segments in ascending (non-decreasing) order
    of [f0]. *)
Theorem setup_sorts_segments (config : Config.t) (s : VNA D) :
  let segs := VNAConfig.segments (cfg (after (setup config s))) in
  Sorted f0_le segs /\
  Permutation (map VNAConfig.segment_of (Config.segments config)) segs.
Proof.
  cbv zeta.
  assert (H : VNAConfig.segments (cfg (after (setup config s))) =
              VNAConfig.sort_by_f0
                (map VNAConfig.segment_of (Config.segments config))).
  { apply (setup_frame
             (fun s' => VNAConfig.segments (cfg s') =
                        VNAConfig.sort_by_f0
                          (map VNAConfig.segment_of (Config.segments config))));
      intros; simpl; auto. }
  rewrite H. split; [apply sort_by_f0_sorted | apply sort_by_f0_perm].
Qed.

(** C8.  Once [set_bw_factor_override(x)] has run, the effective bandwidth
    factor is [x] whatever the nominal factor, and stays [x] through any
    cycles and other deferred mutations; once the override is cleared the
    effective factor is the nominal one again. *)
Theorem bw_factor_override_precedence (s : VNA D) (x : Q) (rs : list request) :
  forallb (fun r => negb (is_override r)) rs = true ->
  let s1 := after (set_bw_factor_override (Some x) s) in
  let s2 := after_all rs s1 in
  let s3 := after (set_bw_factor_override None s2) in
  VNAConfig.get_bw_factor (cfg s1) = x /\
  VNAConfig.get_bw_factor (cfg s2) = x /\
  VNAConfig.get_bw_factor (cfg s3) = VNAConfig.bw_factor (cfg s).
Proof.
  intros Hrs s1 s2 s3.
  assert (H2 : VNAConfig.bw_factor_override (cfg s2) = Some x /\
               VNAConfig.bw_factor (cfg s2) = VNAConfig.bw_factor (cfg s)).
  { apply (@after_all_keeps _ _ _
             (fun s' => VNAConfig.bw_factor_override (cfg s') = Some x /\
                        VNAConfig.bw_factor (cfg s') = VNAConfig.bw_factor (cfg s)));
      [split; intros ? ? H; exact H | intros ? ? H; exact H
      | intros ? ? H; exact H | exact Hrs | split; reflexivity]. }
  destruct H2 as [Ho Hn].
  repeat split.
  - unfold VNAConfig.get_bw_factor. now rewrite Ho.
  - unfold s3. simpl. exact Hn.
Qed.

(** C9.  When [setup] has returned on an analyzer that identifies itself
    as N5232A, [use_markers] is false whatever the configuration asked
    for, it stays false through every later cycle and deferred mutation,
    and no cycle reads a marker register: every cycle is a raw-sweep
    cycle. *)
Theorem n5232a_never_uses_markers (config : Config.t) (s : VNA D)
  (rs : list request) (elapsed : Q) :
  result (setup config s) = Returned tt ->
  model (after (setup config s)) = "N5232A" ->
  let s' := after_all rs (after (setup config s)) in
  VNAConfig.use_markers (cfg s') = false /\
  Forall (fun c => is_marker_read (fst c) = false) (calls (sample elapsed s')).
Proof.
  intros Hret Hmodel s'.
  pose (I := fun st : VNA D =>
               VNAConfig.use_markers (cfg st) = false /\ model st = "N5232A").
  assert (Hb : segment_blind I) by (split; intros ? ? H; exact H).
  assert (Hs' : I s').
  { apply (@after_all_keeps_raw _ _ _ I Hb);
      try solve [intros ? ? H; exact H | intros ? H; exact (proj1 H)].
    split; [apply setup_returned_n5232a; assumption | exact Hmodel]. }
  split; [exact (proj1 Hs')|].
  refine (proj2 (@keeps_sample_raw _ _ _ I Hb _ elapsed s' Hs')).
  intros ? H; exact (proj1 H).
Qed.

End Claims.

Section TransportErrors.

Context {D : Type} {link : ScpiLink D} {num : Numerics}.

Lemma retrack_no_value_query data (s : VNA D) :
  Forall (fun c => is_query_values (fst c) = false) (calls (retrack data s)).
Proof.
  assert (Hb : segment_blind (fun _ : VNA D => True))
    by (split; intros; exact Logic.I).
  exact (proj2 (keeps_retrack Hb data s Logic.I)).
Qed.

(** C6 (amended).  In marker mode a transport error the link raises on a
    marker read makes the cycle return no result; in raw-sweep mode
    whatever the link raises on any call of the cycle (the trigger, the
    wait, the sweep and frequency reads, the reprogramming) is raised by
    the cycle; during [setup] whatever the link raises on any call is
    raised by [setup]. *)
Theorem transport_errors :
  (forall elapsed (s : VNA D) c,
      VNAConfig.use_markers (cfg s) = true ->
      is_marker_read c = true ->
      In (c, Some VisaIOError) (calls (sample elapsed s)) ->
      result (sample elapsed s) = Returned None) /\
  (forall elapsed (s : VNA D) c e,
      VNAConfig.use_markers (cfg s) = false ->
      In (c, Some e) (calls (sample elapsed s)) ->
      result (sample elapsed s) = Raised e) /\
  (forall config (s : VNA D) c e,
      In (c, Some e) (calls (setup config s)) ->
      result (setup config s) = Raised e).
Proof.
  split; [|split;
           [intros elapsed s c e; apply propagates_sample_raw
           |intros config s c e; apply propagates_setup]].
  intros elapsed s c Hum Hc.
  rewrite (sample_markers elapsed s Hum).
  unfold bind. rewrite (acquire_markers_cases s). cbv zeta.
  pose proof (@propagates_read_markers _ _
                (seq 0 (List.length (VNAConfig.segments (cfg s))))
                Sample.init s c VisaIOError) as Hp.
  set (rm := read_markers _ _ s) in *. clearbody rm.
  destruct rm as [[d|e] s1 c1]; cbn [result after calls] in Hp |- *.
  - destruct (truthy (last_sample s) && _); cbn [result after calls];
      [reflexivity|].
    set (s2 := with_last_sample _ s1).
    pose proof (retrack_no_value_query d s2) as Hq.
    intro Hin. exfalso. apply in_app_or in Hin. destruct Hin as [Hin|Hin].
    + specialize (Hp Hin). discriminate.
    + assert (Hin' : In (c, Some VisaIOError) (calls (retrack d s2))).
      { destruct (result (retrack d s2)); cbn [result after calls ret] in Hin;
          [rewrite app_nil_r in Hin|]; exact Hin. }
      rewrite Forall_forall in Hq. specialize (Hq _ Hin'). simpl in Hq.
      destruct c; simpl in *; congruence.
  - destruct e; cbn [result after calls]; try reflexivity;
      intro Hin; specialize (Hp Hin); discriminate.
Qed.

End TransportErrors.

(* ------------------------------------------------------------------ *)
(** ** The auto-tracking controller *)



(** It returns whenever neither divisor is zero. *)
Lemma track_window_total (center span f0 bw k : Q) :
  ~ span == 0 -> ~ bw * k == 0 ->
  exists tf ts,
    track_window center span f0 bw center_err_default span_err_default k
      = Returned (tf, ts).
Proof.
  intros Hs Hb. unfold track_window.
  rewrite (truediv_nonzero _ Hs). simpl.
  destruct (Qgtb _ _); [eauto|].
  rewrite (truediv_nonzero _ Hb). simpl. eauto.
Qed.

Lemma cons_fst_eq {A B} (a : A) (p : list A * B) l b :
  cons_fst a p = (l, b) -> l = a :: fst p /\ snd p = b.
Proof. unfold cons_fst. intro H. inversion H. auto. Qed.



(** Disabled segments are passed over. *)
Lemma track_segments_disabled c segs f0s bws r0 segs' r i seg :
  track_segments c segs f0s bws r0 = (segs', Returned r) ->
  nth_error segs i = Some seg ->
  Segment.enabled seg = false ->
  nth_error segs' i = Some seg.
Proof.
  revert f0s bws r0 segs' i.
  induction segs as [|h rest IH]; intros f0s bws r0 segs' i H Hseg Hen.
  - destruct i; discriminate.
  - destruct f0s as [|f' f0s]; [simpl in H; inversion H; subst; exact Hseg|].
    destruct bws as [|b' bws]; [simpl in H; inversion H; subst; exact Hseg|].
    simpl in H.
    assert (Hrec : forall n r1 p,
               nth_error rest n = Some seg ->
               cons_fst p (track_segments c rest f0s bws r1)
                 = (segs', Returned r) ->
               nth_error segs' (S n) = Some seg).
    { intros n r1 p Hn Hp. apply cons_fst_eq in Hp. destruct Hp as [Hl Hr].
      subst segs'. simpl. eapply IH; eauto. rewrite <- Hr.
      apply surjective_pairing. }
    destruct i as [|i]; simpl in Hseg.
    + inversion Hseg. subst h. rewrite Hen in H. simpl in H.
      apply cons_fst_eq in H. destruct H as [Hl _]. subst segs'. reflexivity.
    + destruct (negb (Segment.enabled h)); [eapply Hrec; eauto|].
      destruct f' as [f'|]; [|inversion H]. destruct b' as [b'|]; [|inversion H].
      destruct (track_window _ _ f' _ _ _ _) as [[tf' ts']|e]; [|inversion H].
      destruct (_ || _); eapply Hrec; eauto.
Qed.

Section Tracking.

Context {D : Type} {link : ScpiLink D} {num : Numerics}.


(** Reprogramming only talks to the link. *)
Lemma set_segments_frame segs ch (s : VNA D) :
  cfg (after (set_segments segs ch s)) = cfg s /\
  model (after (set_segments segs ch s)) = model s /\
  last_sample (after (set_segments segs ch s)) = last_sample s.
Proof.
  refine (proj1 (@keeps_set_segments _ _
                   (fun s' => cfg s' = cfg s /\ model s' = model s /\
                              last_sample s' = last_sample s)
                   _ segs ch s (conj eq_refl (conj eq_refl eq_refl)))).
  intros d s' H. exact H.
Qed.



End Tracking.

(* ------------------------------------------------------------------ *)
(** ** Lost track in raw-sweep mode *)

Section LostTrack.

Context {D : Type} {link : ScpiLink D} {num : Numerics}.

Lemma fit_segments_sticky nudge freq ampl segs start data segs' data' lost' :
  fit_segments nudge freq ampl segs start data true
    = (segs', Returned (data', lost')) ->
  lost' = true.
Proof.
  revert start data segs'.
  induction segs as [|seg rest IH]; intros start data segs' H; simpl in H.
  - inversion H. reflexivity.
  - assert (Hrec : forall p st d,
               cons_fst p (fit_segments nudge freq ampl rest st d true)
                 = (segs', Returned (data', lost')) -> lost' = true).
    { intros p st d Hp. apply cons_fst_eq in Hp. destruct Hp as [_ Hr].
      eapply IH. rewrite <- Hr. apply surjective_pairing. }
    destruct (Segment.enabled seg); [|eapply Hrec; exact H].
    destruct (lorentz_fit _ _) as [[[[vbw vf0] vq] vil]|e];
      [eapply Hrec; exact H|].
    destruct (_ || _); [|inversion H].
    destruct nudge; [|eapply Hrec; exact H].
    destruct (linregress _ _); [eapply Hrec; exact H | inversion H].
Qed.




End LostTrack.

Section LostTrackCycle.

Context {D : Type} {link : ScpiLink D} {num : Numerics}.

Lemma trigger_frame (s : VNA D) : cfg (after (trigger s)) = cfg s.
Proof.
  refine (proj1 (@keeps_trigger _ _ (fun s' => cfg s' = cfg s) _ s eq_refl)).
  intros d s' H. exact H.
Qed.

Lemma read_sweep_frame (s : VNA D) : cfg (after (read_sweep s)) = cfg s.
Proof.
  refine (proj1 (@keeps_read_sweep _ _ _ (fun s' => cfg s' = cfg s) _ s eq_refl)).
  intros d s' H. exact H.
Qed.




End LostTrackCycle.

(* ------------------------------------------------------------------ *)
(** ** Disabled segments *)

Lemma segm_data_loop_spec segs n data :
  segm_data_loop segs n data =
  ((n + List.length (filter Segment.enabled segs))%nat,
   data ++ flat_map data_tuple (filter Segment.enabled segs)).
Proof.
  revert n data. induction segs as [|s segs IH]; intros n data; simpl.
  - now rewrite Nat.add_0_r, app_nil_r.
  - destruct (Segment.enabled s); simpl; [|apply IH].
    rewrite IH. f_equal; [lia|]. now rewrite <- app_assoc.
Qed.

Lemma segm_list_loop_spec segs n data :
  segm_list_loop segs n data =
  ((n + List.length (filter Segment.enabled segs))%nat,
   data ++ flat_map list_tuple (filter Segment.enabled segs)).
Proof.
  revert n data. induction segs as [|s segs IH]; intros n data; simpl.
  - now rewrite Nat.add_0_r, app_nil_r.
  - destruct (Segment.enabled s); simpl; [|apply IH].
    rewrite IH. f_equal; [lia|]. now rewrite <- app_assoc.
Qed.

(** The payload of sweep programming: the header, the number of enabled
    segments, and one tuple per enabled segment, in order. *)
Lemma segm_data_spec segs :
  segm_data segs =
  [VInt 5; VInt 1; VInt 1; VInt 1; VInt 0; VInt 0;
   VInt (Z.of_nat (List.length (filter Segment.enabled segs)))]
  ++ flat_map data_tuple (filter Segment.enabled segs).
Proof. unfold segm_data. rewrite segm_data_loop_spec. reflexivity. Qed.

Lemma segm_list_spec segs :
  segm_list segs =
  [VStr "SSTOP"; VInt (Z.of_nat (List.length (filter Segment.enabled segs)))]
  ++ flat_map list_tuple (filter Segment.enabled segs).
Proof. unfold segm_list. rewrite segm_list_loop_spec. reflexivity. Qed.

(** [N - k] slots for [N] segments of which [k] are disabled. *)
Lemma enabled_count segs :
  (List.length (filter Segment.enabled segs)
   + List.length (filter (fun s => negb (Segment.enabled s)) segs)
   = List.length segs)%nat.
Proof.
  induction segs as [|s segs IH]; simpl; [reflexivity|].
  destruct (Segment.enabled s); simpl; lia.
Qed.

Section RawSlots.

Context {num : Numerics}.

Lemma slots_of_snoc {A} segs (l : list (option A)) seg slot :
  slots_of segs l ->
  (Segment.enabled seg = false <-> slot = None) ->
  slots_of (segs ++ [seg]) (l ++ [slot]).
Proof.
  intros H Hs. apply Forall2_app; [exact H|].
  constructor; [exact Hs | constructor].
Qed.

(** In raw-sweep mode a Sample has one slot per segment for each
    quantity, empty exactly at the disabled segments. *)
Lemma fit_segments_slots nudge freq ampl segs :
  forall done start data lost segs' data',
    fit_segments nudge freq ampl segs start data lost
      = (segs', Returned (data', false)) ->
    slots_of done (Sample.bw data) /\ slots_of done (Sample.f0 data) /\
    slots_of done (Sample.q data) /\ slots_of done (Sample.il data) /\
    slots_of done (Sample.freq data) /\ slots_of done (Sample.ampl data) ->
    slots_of (done ++ segs) (Sample.bw data') /\
    slots_of (done ++ segs) (Sample.f0 data') /\
    slots_of (done ++ segs) (Sample.q data') /\
    slots_of (done ++ segs) (Sample.il data') /\
    slots_of (done ++ segs) (Sample.freq data') /\
    slots_of (done ++ segs) (Sample.ampl data').
Proof.
  induction segs as [|seg rest IH]; intros done start data lost segs' data' H Hd.
  - simpl in H. inversion H. subst. now rewrite app_nil_r.
  - simpl in H.
    replace (done ++ seg :: rest) with ((done ++ [seg]) ++ rest)
      by (now rewrite <- app_assoc).
    destruct Hd as (H1 & H2 & H3 & H4 & H5 & H6).
    destruct (Segment.enabled seg) eqn:Hen.
    + destruct (lorentz_fit _ _) as [[[[vbw vf0] vq] vil]|e].
      * apply cons_fst_eq in H. destruct H as [_ Hr].
        eapply IH; [rewrite <- Hr; apply surjective_pairing|].
        simpl. repeat split; apply slots_of_snoc; try assumption;
          rewrite Hen; split; discriminate.
      * exfalso.
        assert (Hst : forall p st d,
                   cons_fst p (fit_segments nudge freq ampl rest st d true)
                     = (segs', Returned (data', false)) -> False).
        { intros p st d Hp. apply cons_fst_eq in Hp. destruct Hp as [_ Hr].
          enough (false = true) by discriminate.
          eapply fit_segments_sticky. rewrite <- Hr. apply surjective_pairing. }
        destruct (_ || _); [|inversion H].
        destruct nudge; [|eapply Hst; exact H].
        destruct (linregress _ _); [eapply Hst; exact H | inversion H].
    + apply cons_fst_eq in H. destruct H as [_ Hr].
      eapply IH; [rewrite <- Hr; apply surjective_pairing|].
      simpl. repeat split; apply slots_of_snoc; try assumption;
        rewrite Hen; split; reflexivity.
Qed.

End RawSlots.

(* ------------------------------------------------------------------ *)
(** ** The resonance fitter *)

Module FitterFacts.

Import Fitter.

Local Open Scope R_scope.

Lemma fold_Rmax_ge l x : x <= fold_left Rmax l x.
Proof.
  revert x. induction l as [|y l IH]; intro x; simpl; [lra|].
  eapply Rle_trans; [apply Rmax_l | apply IH].
Qed.

Lemma fold_Rmax_upper l x y : In y l -> y <= fold_left Rmax l x.
Proof.
  revert x. induction l as [|z l IH]; intros x []; simpl.
  - subst z. eapply Rle_trans; [apply Rmax_r | apply fold_Rmax_ge].
  - now apply IH.
Qed.

Lemma fold_Rmax_in l x : In (fold_left Rmax l x) (x :: l).
Proof.
  revert x. induction l as [|y l IH]; intro x; simpl; [now left|].
  destruct (IH (Rmax x y)) as [H|H]; [|now right; right].
  rewrite <- H. unfold Rmax. destruct (Rle_dec x y); [right|]; now left.
Qed.

Lemma fold_Rmin_le l x : fold_left Rmin l x <= x.
Proof.
  revert x. induction l as [|y l IH]; intro x; simpl; [lra|].
  eapply Rle_trans; [apply IH | apply Rmin_l].
Qed.

Lemma fold_Rmin_lower l x y : In y l -> fold_left Rmin l x <= y.
Proof.
  revert x. induction l as [|z l IH]; intros x []; simpl.
  - subst z. eapply Rle_trans; [apply fold_Rmin_le | apply Rmin_r].
  - now apply IH.
Qed.

Lemma np_max_upper l m y : np_max l = Returned m -> In y l -> y <= m.
Proof.
  destruct l as [|x l]; [discriminate|]. intros H [Hy|Hy]; inversion H.
  - subst. apply fold_Rmax_ge.
  - now apply fold_Rmax_upper.
Qed.

Lemma np_max_in l m : np_max l = Returned m -> In m l.
Proof.
  destruct l as [|x l]; [discriminate|]. intro H. inversion H.
  apply fold_Rmax_in.
Qed.

Lemma np_min_lower l m y : np_min l = Returned m -> In y l -> m <= y.
Proof.
  destruct l as [|x l]; [discriminate|]. intros H [Hy|Hy]; inversion H.
  - subst. apply fold_Rmin_le.
  - now apply fold_Rmin_lower.
Qed.

Lemma np_min_le_max l lo hi :
  np_min l = Returned lo -> np_max l = Returned hi -> lo <= hi.
Proof.
  intros Hlo Hhi. destruct l as [|x l]; [discriminate|].
  apply Rle_trans with x.
  - eapply np_min_lower; [exact Hlo | now left].
  - eapply np_max_upper; [exact Hhi | now left].
Qed.

(** The solver never sees [weights]: two solvers that agree without
    [sigma] give the same fit. *)
Lemma lorentz_fit_unweighted cf1 cf2 freq ampl f0 bw pmax :
  (forall f x y p, cf1 f x y p None = cf2 f x y p None) ->
  lorentz_fit cf1 freq ampl f0 bw pmax = lorentz_fit cf2 freq ampl f0 bw pmax.
Proof.
  intro H. unfold lorentz_fit.
  destruct (np_max ampl); simpl; [|reflexivity].
  destruct (np_min freq); simpl; [|reflexivity].
  destruct (np_max freq); simpl; [|reflexivity].
  now rewrite H.
Qed.

(** C2 (amended).  [lorentz_fit] maps the frequencies to
    [(f - min)/(max - min)], which lies in [0,1], and the amplitudes to
    [a/peak], which lies in [0,1] with the peak at 1; it hands the solver
    the lineshape [pmax / sqrt(1 + 4*((x - f0)/bw)^2)], the normalised data
    and the start values [(0.5, 0.5, 1)]; from the solver's [(f0, bw, pmax)]
    it returns the bandwidth [|bw| * (max - min)], the centre
    [f0 * (max - min) + min], their quotient centre/bandwidth as quality
    factor and [20 * log10 (pmax * peak)] as insertion loss. *)
Theorem lorentz_fit_algorithm curve_fit (freq ampl : list R) (minf maxf maxa : R) :
  np_min freq = Returned minf ->
  np_max freq = Returned maxf ->
  np_max ampl = Returned maxa ->
  let fspan := maxf - minf in
  let normf := map (fun f => (f - minf) / fspan) freq in
  let norma := map (fun a => a / maxa) ampl in
  (minf < maxf -> Forall (fun x => 0 <= x <= 1) normf) /\
  (0 < maxa -> Forall (fun a => 0 <= a) ampl ->
   Forall (fun y => 0 <= y <= 1) norma /\ In 1 norma) /\
  (forall x f0 bw pmax,
      lorentz_fn x f0 bw pmax = pmax / sqrt (1 + 4 * ((x - f0) / bw)²)) /\
  lorentz_fit curve_fit freq ampl 0.5 0.5 1 =
  match curve_fit lorentz_fn normf norma (0.5, 0.5, 1) None with
  | Returned (f0, bw, pmax) =>
      Returned (Rabs bw * fspan, f0 * fspan + minf,
                (f0 * fspan + minf) / (Rabs bw * fspan),
                20 * log10 (pmax * maxa))
  | Raised e => Raised e
  end.
Proof.
  intros Hmin Hmax Hpeak fspan normf norma. repeat split.
  - intro Hlt. unfold normf. apply Forall_map, Forall_forall. intros f Hf.
    assert (minf <= f) by (eapply np_min_lower; eassumption).
    assert (f <= maxf) by (eapply np_max_upper; eassumption).
    assert (0 < fspan) by (unfold fspan; lra).
    split.
    + apply Rmult_le_pos; [lra | left; now apply Rinv_0_lt_compat].
    + apply (Rmult_le_reg_r fspan); [assumption|].
      unfold Rdiv. rewrite Rmult_assoc, Rinv_l by lra. unfold fspan. lra.
  - unfold norma. apply Forall_map, Forall_forall. intros a Ha.
    rewrite Forall_forall in H0. pose proof (H0 _ Ha).
    assert (a <= maxa) by (eapply np_max_upper; eassumption).
    split.
    + apply Rmult_le_pos; [assumption | left; now apply Rinv_0_lt_compat].
    + apply (Rmult_le_reg_r maxa); [assumption|].
      unfold Rdiv. rewrite Rmult_assoc, Rinv_l by lra. lra.
  - unfold norma. apply in_map_iff. exists maxa.
    split; [field; lra | now apply np_max_in].
  - intros x f0 bw pmax. unfold lorentz_fn, Rsqr. simpl. do 3 f_equal. ring.
  - unfold lorentz_fit. rewrite Hpeak, Hmin, Hmax. simpl.
    fold fspan. fold normf. fold norma.
    destruct (curve_fit _ _ _ _ _) as [[[f0 bw] pmax]|e]; reflexivity.
Qed.

(** C10.  Whenever the fit returns, the bandwidth it returns is
    non-negative, whatever the sign of the solver's bandwidth
    parameter. *)
Theorem lorentz_fit_bandwidth_nonneg curve_fit (freq ampl : list R)
  (f0 bw pmax vbw vf0 vq vil : R) :
  lorentz_fit curve_fit freq ampl f0 bw pmax = Returned (vbw, vf0, vq, vil) ->
  0 <= vbw.
Proof.
  unfold lorentz_fit.
  destruct (np_max ampl) as [maxa|]; simpl; [|discriminate].
  destruct (np_min freq) as [minf|] eqn:Hmin; simpl; [|discriminate].
  destruct (np_max freq) as [maxf|] eqn:Hmax; simpl; [|discriminate].
  destruct (curve_fit _ _ _ _ _) as [[[f0' bw'] pmax']|]; simpl; [|discriminate].
  intro H. inversion H. subst.
  apply Rmult_le_pos; [apply Rabs_pos|].
  assert (minf <= maxf) by (eapply np_min_le_max; eassumption). lra.
Qed.

End FitterFacts.

(* ================================================================== *)
(** * The claims on the simulated instrument *)

Local Open Scope string_scope.

(** C4 on the simulated analyzer: the second of two identical readouts
    gives no result. *)
Lemma marker_staleness_witness :
  result (Bench.sample 1 (after (Bench.sample 0 Bench.marker_session)))
    = Returned None.
Proof.
  refine (f_equal (@result _ _)
            (proj1 (@marker_staleness _ Bench.link Bench.numerics 0 1
                      Bench.marker_session Bench.readout_101 Bench.readout_101
                      _ _ _ _)));
    vm_compute; reflexivity.
Defined.

(** C8 on the simulated analyzer: an override of 4 over a nominal factor
    of 8 survives a cycle, a reset and a tracking switch. *)
Lemma bw_factor_override_precedence_witness :
  VNAConfig.get_bw_factor
    (cfg (Bench.after_all
            [ReqSample 0; ReqResetTracking; ReqTrackingOverride false]
            (after (Bench.set_bw_factor_override (Some 4) Bench.marker_session))))
    = 4.
Proof.
  exact (proj1 (proj2 (@bw_factor_override_precedence _ Bench.link
                         Bench.numerics Bench.marker_session 4
                         [ReqSample 0; ReqResetTracking; ReqTrackingOverride false]
                         eq_refl))).
Defined.

(** C9 on the simulated N5232A, configured for markers. *)
Lemma n5232a_never_uses_markers_witness :
  VNAConfig.use_markers
    (cfg (Bench.after_all [ReqSample 0]
            (after (Bench.setup Bench.marker_config
                      (Bench.fresh (Bench.n5232a []))))))
    = false.
Proof.
  refine (proj1 (@n5232a_never_uses_markers _ Bench.link Bench.numerics
                   Bench.marker_config (Bench.fresh (Bench.n5232a []))
                   [ReqSample 0] 0 _ _));
    vm_compute; reflexivity.
Defined.

(** C6 (amended) on the simulated analyzer: a timeout on a marker read
    ends the cycle without a result; a timeout on the sweep read of
    raw-sweep mode is raised by the cycle; an unplugged link makes
    [setup] raise. *)
Lemma transport_errors_witness :
  result (Bench.sample 0 Bench.marker_session_timeout) = Returned None /\
  result (Bench.sample 0 Bench.raw_session_timeout) = Raised VisaIOError /\
  result (Bench.setup Bench.marker_config (Bench.fresh Bench.unplugged))
    = Raised VisaIOError.
Proof.
  split; [|split].
  - apply (proj1 (@transport_errors _ Bench.link Bench.numerics) 0
             Bench.marker_session_timeout
             (QueryValues ":CALC{}:MARK{}:BWID:DATA?" [AInt 1; AInt 1]));
      [reflexivity | reflexivity | vm_compute; left; reflexivity].
  - apply (proj1 (proj2 (@transport_errors _ Bench.link Bench.numerics)) 0
             Bench.raw_session_timeout
             (QueryValues ":CALC{}:DATA:SDAT?" [AInt 1]));
      [reflexivity | vm_compute; right; right; left; reflexivity].
  - apply (proj2 (proj2 (@transport_errors _ Bench.link Bench.numerics))
             Bench.marker_config (Bench.fresh Bench.unplugged) Reset);
      vm_compute; left; reflexivity.
Defined.

(** C6 refuted as stated: in raw-sweep mode the timeout of the sweep read
    is raised by the cycle. *)
Lemma raw_sweep_transport_error_propagates :
  result (Bench.sample 0 Bench.raw_session_timeout) = Raised VisaIOError /\
  In (QueryValues ":CALC{}:DATA:SDAT?" [AInt 1], Some VisaIOError)
     (calls (Bench.sample 0 Bench.raw_session_timeout)).
Proof. split; vm_compute; [reflexivity | right; right; left; reflexivity]. Qed.

(** C7 refuted as stated: two windows with the same centre are not in
    strictly ascending order after [setup]. *)
Lemma setup_order_not_strict :
  ~ Sorted f0_lt
      (VNAConfig.segments
         (cfg (after (Bench.setup Bench.tie_config
                        (Bench.fresh (Bench.e5071c [])))))).
Proof.
  intro H.
  assert (E : map Segment.f0
                (VNAConfig.segments
                   (cfg (after (Bench.setup Bench.tie_config
                                  (Bench.fresh (Bench.e5071c []))))))
              = [100; 100]) by (vm_compute; reflexivity).
  destruct (VNAConfig.segments _) as [|a [|b l]]; try discriminate.
  inversion E as [[Ha Hb]].
  inversion H as [|x y Hs Hh]. subst. inversion Hh as [|z w Hlt]. subst.
  unfold f0_lt in Hlt. rewrite Ha in Hlt.
  assert (Hb' : Segment.f0 b = 100) by (inversion E; reflexivity).
  rewrite Hb' in Hlt. discriminate Hlt.
Qed.



(** C5, the failing input: in marker mode the slot of the disabled second
    segment holds a readout, not the empty marker. *)
Lemma marker_mode_fills_disabled_slot :
  map Segment.enabled (VNAConfig.segments (cfg Bench.marker_session_off))
    = [true; false] /\
  result (Bench.sample 0 Bench.marker_session_off)
    = Returned (Some (Sample.mk [Some 0.5; Some 0.5] [Some 100; Some 200]
                                [Some 200; Some 400] [Some (-3); Some (-3)]
                                [] [])).
Proof. split; vm_compute; reflexivity. Qed.



(** A lost window nudged forward: the amplitude is still rising at the
    right edge of the window, the stand-in fitter does not converge, the
    slope is positive, [f0] goes from 100 to 110, and the sweep is
    reprogrammed with it. *)
Lemma lost_track_nudges_forward :
  Bench.slope [95; 100; 105] [5; 10; 13] = Returned (4 # 5) /\
  map Segment.f0
    (VNAConfig.segments
       (cfg (after (Bench.sample 0 Bench.raw_session_rising)))) = [110] /\
  calls (Bench.sample 0 Bench.raw_session_rising) =
    [(Write ":TRIG:SING" [], None); (Query "*OPC?" [], None);
     (QueryValues ":CALC{}:DATA:SDAT?" [AInt 1], None);
     (QueryValues ":SENS{}:FREQ:DATA?" [AInt 1], None);
     (WriteValues ":SENS{}:SEGM:DATA"
        [VInt 5; VInt 1; VInt 1; VInt 1; VInt 0; VInt 0; VInt 1;
         VNum 110; VNum 10; VInt 3; VNum 1000; VNum 0] [AInt 1], None)].
Proof. repeat split; vm_compute; reflexivity. Qed.

(** In raw-sweep mode the disabled second segment gets empty slots. *)
Lemma raw_mode_empties_disabled_slot :
  result (Bench.sample 0 Bench.raw_session_peak)
    = Returned (Some (Sample.mk [Some (10 # 4); None] [Some 100; None]
                                [Some (400 # 10); None] [Some 10; None]
                                [Some [95; 100; 105]; None]
                                [Some [5; 10; 5]; None])).
Proof. vm_compute. reflexivity. Qed.

Module FitterBench.

Import Fitter FitterFacts.

Local Open Scope R_scope.

(** C2 refuted as stated: one bandwidth off centre the lineshape of the
    code is [1/sqrt 5], the documented one [1/sqrt 17]. *)
Lemma lineshape_not_as_documented :
  lorentz_fn 1 0 1 1 <> documented_lineshape 1 0 1 1.
Proof.
  unfold lorentz_fn, documented_lineshape. intro H.
  assert (E5 : 1 + 4 * ((1 - 0) / 1) ^ 2 = 5) by field.
  assert (E17 : 1 + (4 * (1 - 0) / 1) ^ 2 = 17) by field.
  rewrite E5, E17 in H.
  assert (Hs : sqrt 5 = sqrt 17).
  { rewrite <- (Rinv_inv (sqrt 5)), <- (Rinv_inv (sqrt 17)).
    unfold Rdiv in H. rewrite !Rmult_1_l in H. now rewrite H. }
  apply sqrt_inj in Hs; lra.
Qed.

(** C2 (amended) on three samples, with the stand-in solver: the
    normalised frequencies and amplitudes lie in [0,1], and the result is
    the de-normalised answer of the solver. *)
Lemma lorentz_fit_algorithm_witness :
  let minf := fold_left Rmin [1; 2] 0 in
  let maxf := fold_left Rmax [1; 2] 0 in
  let maxa := fold_left Rmax [2; 1] 1 in
  Forall (fun x => 0 <= x <= 1)
         (map (fun f => (f - minf) / (maxf - minf)) [0; 1; 2]) /\
  Forall (fun y => 0 <= y <= 1) (map (fun a => a / maxa) [1; 2; 1]) /\
  lorentz_fit flipped_start [0; 1; 2] [1; 2; 1] 0.5 0.5 1 =
  Returned (Rabs (Ropp 0.5) * (maxf - minf), 0.5 * (maxf - minf) + minf,
            (0.5 * (maxf - minf) + minf) / (Rabs (Ropp 0.5) * (maxf - minf)),
            20 * log10 (1 * maxa)).
Proof.
  intros minf maxf maxa.
  pose proof (@lorentz_fit_algorithm flipped_start [0; 1; 2] [1; 2; 1] _ _ _
                eq_refl eq_refl eq_refl) as H.
  cbv zeta in H. destruct H as (Hf & Ha & _ & Hfit).
  split; [|split].
  - apply Hf. simpl. unfold Rmin, Rmax.
    repeat destruct Rle_dec; lra.
  - apply Ha.
    + simpl. unfold Rmax. repeat destruct Rle_dec; lra.
    + repeat constructor; lra.
  - exact Hfit.
Defined.
(** C10 on three samples: the stand-in solver ends on the bandwidth
    parameter [-0.5], the returned bandwidth is not negative. *)
Lemma lorentz_fit_bandwidth_nonneg_witness :
  0 <= Rabs (Ropp 0.5) * (fold_left Rmax [1; 2] 0 - fold_left Rmin [1; 2] 0).
Proof.
  eapply (@lorentz_fit_bandwidth_nonneg flipped_start [0; 1; 2] [1; 2; 1]
            0.5 0.5 1).
  reflexivity.
Defined.

End FitterBench.

(* ================================================================== *)
(** * Further properties of the driver *)

Local Open Scope list_scope.

(** ** Segments keep their identity *)

Lemma same_identity_refl a : same_identity a a.
Proof. repeat split. Qed.

Lemma same_identity_trans a b c :
  same_identity a b -> same_identity b c -> same_identity a c.
Proof.
  unfold same_identity. intros (?&?&?&?&?&?) (?&?&?&?&?&?).
  repeat split; congruence.
Qed.

Lemma only_retuned_refl a : only_retuned a a.
Proof. split; [apply same_identity_refl | reflexivity]. Qed.

Lemma only_retuned_trans a b c :
  only_retuned a b -> only_retuned b c -> only_retuned a c.
Proof.
  intros [H1 E1] [H2 E2].
  split; [eapply same_identity_trans; eassumption | congruence].
Qed.

Lemma only_retuned_set_f0 v a : only_retuned a (Segment.set_f0 v a).
Proof. repeat split. Qed.

Lemma only_retuned_set_span v a : only_retuned a (Segment.set_span v a).
Proof. repeat split. Qed.

Lemma Forall2_refl {A} (R : A -> A -> Prop) :
  (forall a, R a a) -> forall l, Forall2 R l l.
Proof. intros H l. induction l; constructor; auto. Qed.

Lemma Forall2_trans {A} (R S T : A -> A -> Prop) :
  (forall a b c, R a b -> S b c -> T a c) ->
  forall l1 l2 l3, Forall2 R l1 l2 -> Forall2 S l2 l3 -> Forall2 T l1 l3.
Proof.
  intros H l1 l2 l3 H12. revert l3.
  induction H12; intros l3 H23; inversion H23; subst; constructor; eauto.
Qed.

Lemma Forall2_cons_fst {A B} (R : A -> A -> Prop) a a' l (p : list A * B) :
  R a a' -> Forall2 R l (fst p) -> Forall2 R (a :: l) (fst (cons_fst a' p)).
Proof. intros. simpl. now constructor. Qed.

Lemma retune_only_retuned c f b seg : only_retuned seg (retune c f b seg).
Proof.
  unfold retune.
  destruct (VNAConfig.track_freq c), (VNAConfig.track_span c); repeat split.
Qed.

(** The tracking loop changes nothing but [f0] and [span], whether it
    returns or raises. *)
Lemma track_segments_only_retuned c segs f0s bws r :
  Forall2 only_retuned segs (fst (track_segments c segs f0s bws r)).
Proof.
  revert f0s bws r. induction segs as [|seg rest IH]; intros f0s bws r.
  - simpl. constructor.
  - destruct f0s as [|f f0s]; [apply Forall2_refl, only_retuned_refl|].
    destruct bws as [|b bws]; [apply Forall2_refl, only_retuned_refl|].
    simpl. destruct (negb (Segment.enabled seg)).
    { apply Forall2_cons_fst; [apply only_retuned_refl | apply IH]. }
    destruct f as [f|]; [|apply Forall2_refl, only_retuned_refl].
    destruct b as [b|]; [|apply Forall2_refl, only_retuned_refl].
    destruct (track_window _ _ _ _ _ _ _) as [[tf ts]|e];
      [|apply Forall2_refl, only_retuned_refl].
    destruct (_ || _); apply Forall2_cons_fst;
      try apply IH; [apply (retune_only_retuned c f b seg) | apply only_retuned_refl].
Qed.

Section FitLoopFrames.

Context {num : Numerics}.

(** So does the fit loop. *)
Lemma fit_segments_only_retuned nudge freq ampl segs start data lost :
  Forall2 only_retuned segs
    (fst (fit_segments nudge freq ampl segs start data lost)).
Proof.
  revert start data lost. induction segs as [|seg rest IH]; intros start data lost.
  - simpl. constructor.
  - simpl. destruct (Segment.enabled seg);
      [|apply Forall2_cons_fst; [apply only_retuned_refl | apply IH]].
    destruct (lorentz_fit _ _) as [[[[vbw vf0] vq] vil]|e];
      [apply Forall2_cons_fst; [apply only_retuned_refl | apply IH]|].
    destruct (_ || _); [|apply Forall2_refl, only_retuned_refl].
    destruct nudge;
      [|apply Forall2_cons_fst; [apply only_retuned_refl | apply IH]].
    destruct (linregress _ _); [|apply Forall2_refl, only_retuned_refl].
    apply Forall2_cons_fst; [|apply IH].
    destruct (Qgtb _ _); apply only_retuned_set_f0.
Qed.

(** Without the nudge the fit loop leaves the segments alone. *)
Lemma fit_segments_no_nudge freq ampl segs start data lost :
  fst (fit_segments false freq ampl segs start data lost) = segs.
Proof.
  revert start data lost. induction segs as [|seg rest IH]; intros start data lost.
  - reflexivity.
  - simpl. destruct (Segment.enabled seg); [|simpl; now rewrite IH].
    destruct (lorentz_fit _ _) as [[[[vbw vf0] vq] vil]|e];
      [simpl; now rewrite IH|].
    destruct (_ || _); [simpl; now rewrite IH | reflexivity].
Qed.

End FitLoopFrames.

(** ** Invariants over the segment list *)

Section RetuneFrames.

Context {D : Type} {link : ScpiLink D} {num : Numerics}.

Variable I : VNA D -> Prop.
Hypothesis I_res : forall d s, I s -> I (with_res d s).
Hypothesis I_last : forall l s, I s -> I (with_last_sample l s).
Hypothesis I_retune :
  forall segs' s,
    I s -> Forall2 only_retuned (VNAConfig.segments (cfg s)) segs' ->
    I (with_cfg (VNAConfig.set_segments segs' (cfg s)) s).

Lemma keeps_retrack_retuned data s : keeps I (fun _ => True) (retrack data) s.
Proof.
  unfold retrack. apply keeps_get_bind.
  destruct (_ && _); [|apply keeps_ret].
  apply keeps_bind.
  { unfold store_segments. apply keeps_modify. intro Hs.
    apply I_retune; [exact Hs | apply track_segments_only_retuned]. }
  intros _ _. apply keeps_bind; [apply keeps_lift|].
  intros [|] _; [|apply keeps_ret].
  apply keeps_get_bind. apply keeps_bind.
  { eapply keeps_weaken; [|apply keeps_set_segments; exact I_res].
    exact (fun _ _ => Logic.I). }
  intros _ _. unfold res_write, res_query.
  destruct (VNAConfig.use_markers _); [|apply keeps_ret].
  destruct (is_N5232A _); run_steps I_res tt.
Qed.

Lemma keeps_fit_sweep_retuned freq ampl s :
  keeps I (fun _ => True) (fit_sweep freq ampl) s.
Proof.
  unfold fit_sweep. apply keeps_get_bind. apply keeps_bind.
  { unfold store_segments. apply keeps_modify. intro Hs.
    apply I_retune; [exact Hs | apply fit_segments_only_retuned]. }
  intros _ _. apply keeps_bind; [apply keeps_lift|].
  intros [d [|]] _; simpl; [|apply keeps_ret].
  apply keeps_get_bind. apply keeps_bind; [|intros; apply keeps_ret].
  destruct (_ && _); [|apply keeps_ret].
  eapply keeps_weaken; [|apply keeps_set_segments; exact I_res].
  exact (fun _ _ => Logic.I).
Qed.

Lemma keeps_acquire_markers_retuned s :
  keeps I (fun _ => True) acquire_markers s.
Proof.
  unfold acquire_markers. apply keeps_get_bind.
  apply keeps_bind;
    [apply keeps_except_visa; apply keeps_read_markers; exact I_res|].
  intros [data|] _; [|apply keeps_ret].
  apply keeps_get_bind. destruct (_ && _); [apply keeps_ret|].
  apply keeps_bind; [|intros; apply keeps_ret].
  apply keeps_modify. apply I_last.
Qed.

Lemma keeps_sample_retuned elapsed s :
  keeps I (fun _ => True) (sample elapsed) s.
Proof.
  unfold sample. apply keeps_bind.
  { eapply keeps_weaken; [|apply keeps_trigger; exact I_res].
    exact (fun _ _ => Logic.I). }
  intros _ _. apply keeps_get_bind. apply keeps_bind.
  - destruct (VNAConfig.use_markers _); [apply keeps_acquire_markers_retuned|].
    unfold acquire_raw. apply keeps_bind.
    + eapply keeps_weaken; [|apply keeps_read_sweep; exact I_res].
      exact (fun _ _ => Logic.I).
    + intros sweep _. apply keeps_fit_sweep_retuned.
  - intros [data|] _; [|apply keeps_ret].
    apply keeps_bind; [apply keeps_retrack_retuned | intros; apply keeps_ret].
Qed.

End RetuneFrames.

Section SegmentInvariants.

Context {D : Type} {link : ScpiLink D} {num : Numerics}.

Lemma sample_frame (elapsed : Q) (s : VNA D) :
  let s' := after (sample elapsed s) in
  Forall2 only_retuned (VNAConfig.segments (cfg s)) (VNAConfig.segments (cfg s')) /\
  VNAConfig.set_segments [] (cfg s') = VNAConfig.set_segments [] (cfg s) /\
  model s' = model s.
Proof.
  refine (proj1 (@keeps_sample_retuned _ _ _
                   (fun s' =>
                      Forall2 only_retuned (VNAConfig.segments (cfg s))
                              (VNAConfig.segments (cfg s')) /\
                      VNAConfig.set_segments [] (cfg s')
                        = VNAConfig.set_segments [] (cfg s) /\
                      model s' = model s)
                   _ _ _ elapsed s _)).
  - intros d s' H. exact H.
  - intros l s' H. exact H.
  - intros segs' s' (H1 & H2 & H3) Hr. split; [|split; assumption].
    simpl. eapply Forall2_trans; [apply only_retuned_trans | exact H1 | exact Hr].
  - split; [apply Forall2_refl, only_retuned_refl | split; reflexivity].
Qed.

Lemma setitem_Forall2 {A} (R : A -> A -> Prop) l i a b :
  (forall x, R x x) -> nth_error l i = Some a -> R a b ->
  Forall2 R l (setitem l i b).
Proof.
  intros Hr. revert i. induction l as [|h t IH]; intros i Hn Hab.
  - destruct i; discriminate.
  - destruct i as [|i]; simpl in *.
    + inversion Hn. subst. constructor; [exact Hab | now apply Forall2_refl].
    + constructor; [apply Hr | now apply IH].
Qed.

Lemma perform_same_identity (r : request) (s : VNA D) :
  Forall2 same_identity (VNAConfig.segments (cfg s))
          (VNAConfig.segments (cfg (after (perform r s)))).
Proof.
  destruct r as [e|i b|f|b|]; cbn [perform].
  - assert (H : after (bind (sample e) (fun _ => ret tt) s) = after (sample e s)).
    { unfold bind. destruct (result (sample e s)); reflexivity. }
    rewrite H. eapply Forall2_impl; [|apply (sample_frame e s)].
    intros a b' Hab. exact (proj1 Hab).
  - unfold set_segment_enabled. rewrite bind_get.
    destruct (nth_error _ i) as [seg|] eqn:E;
      [|apply Forall2_refl, same_identity_refl].
    unfold store_segments. rewrite bind_modify, bind_get.
    rewrite (proj1 (set_segments_frame _ _ _)). simpl.
    eapply setitem_Forall2; [apply same_identity_refl | exact E | repeat split].
  - apply Forall2_refl, same_identity_refl.
  - apply Forall2_refl, same_identity_refl.
  - unfold reset_tracking. rewrite bind_get. unfold store_segments.
    rewrite bind_modify, bind_get. rewrite (proj1 (set_segments_frame _ _ _)).
    simpl. induction (VNAConfig.segments (cfg s)); simpl; constructor;
      [repeat split | assumption].
Qed.

Lemma after_all_same_identity (rs : list request) (s : VNA D) :
  Forall2 same_identity (VNAConfig.segments (cfg s))
          (VNAConfig.segments (cfg (after_all rs s))).
Proof.
  revert s. induction rs as [|r rs IH]; intro s; simpl.
  - apply Forall2_refl, same_identity_refl.
  - eapply Forall2_trans;
      [apply same_identity_trans | apply perform_same_identity | apply IH].
Qed.

Lemma reset_tracking_segments (s : VNA D) :
  VNAConfig.segments (cfg (after (reset_tracking s))) =
  map (fun seg => Segment.set_span (Segment.span_default seg)
                    (Segment.set_f0 (Segment.f0_default seg) seg))
      (VNAConfig.segments (cfg s)).
Proof.
  unfold reset_tracking. rewrite bind_get. unfold store_segments.
  rewrite bind_modify, bind_get. now rewrite (proj1 (set_segments_frame _ _ _)).
Qed.

(** X1.  A sampling cycle, whatever it returns or raises, changes nothing
    of the driver's configuration but the [f0] and [span] of segments:
    their number, order, names, defaults, points, IF bandwidth, power and
    enabled flags, every other configuration attribute, and the model are
    as before. *)
Theorem sample_only_retunes (elapsed : Q) (s : VNA D) :
  let s' := after (sample elapsed s) in
  Forall2 only_retuned (VNAConfig.segments (cfg s)) (VNAConfig.segments (cfg s')) /\
  VNAConfig.set_segments [] (cfg s') = VNAConfig.set_segments [] (cfg s) /\
  model s' = model s.
Proof. exact (sample_frame elapsed s). Qed.

(** X2.  Through any sequence of cycles and deferred mutations the segment
    list keeps its length and order and every segment keeps its name, its
    default centre and span, its points, IF bandwidth and power: only
    [f0], [span] and [enabled] ever change after [setup]. *)
Theorem session_keeps_identity (rs : list request) (s : VNA D) :
  Forall2 same_identity (VNAConfig.segments (cfg s))
          (VNAConfig.segments (cfg (after_all rs s))).
Proof. exact (after_all_same_identity rs s). Qed.

(** X3.  [reset_tracking] undoes all tracking: started from segments at
    their configured geometry, after any sequence of cycles and deferred
    mutations followed by [reset_tracking], every segment has the centre
    and span it started with, and the call programs that list. *)
Theorem reset_tracking_restores (rs : list request) (s0 : VNA D) :
  Forall at_default (VNAConfig.segments (cfg s0)) ->
  let s := after_all rs s0 in
  let s' := after (reset_tracking s) in
  map Segment.f0 (VNAConfig.segments (cfg s'))
    = map Segment.f0 (VNAConfig.segments (cfg s0)) /\
  map Segment.span (VNAConfig.segments (cfg s'))
    = map Segment.span (VNAConfig.segments (cfg s0)) /\
  Forall at_default (VNAConfig.segments (cfg s')) /\
  calls (reset_tracking s) =
    calls (set_segments (VNAConfig.segments (cfg s')) 1
             (with_cfg (VNAConfig.set_segments (VNAConfig.segments (cfg s'))
                          (cfg s)) s)).
Proof.
  intros Hdef s s'.
  pose proof (after_all_same_identity rs s0) as Hid. fold s in Hid.
  assert (Hsegs : VNAConfig.segments (cfg s') =
                  map (fun seg => Segment.set_span (Segment.span_default seg)
                                    (Segment.set_f0 (Segment.f0_default seg) seg))
                      (VNAConfig.segments (cfg s)))
    by apply reset_tracking_segments.
  repeat split.
  - rewrite Hsegs. clear Hsegs s'. induction Hid as [|a b la lb Hab Hl IH];
      [reflexivity|].
    inversion Hdef as [|? ? [Hf _] Hdef']. subst. simpl.
    f_equal; [|now apply IH].
    destruct Hab as (_ & Hd & _). congruence.
  - rewrite Hsegs. clear Hsegs s'. induction Hid as [|a b la lb Hab Hl IH];
      [reflexivity|].
    inversion Hdef as [|? ? [_ Hsp] Hdef']. subst. simpl.
    f_equal; [|now apply IH].
    destruct Hab as (_ & _ & Hd & _). congruence.
  - rewrite Hsegs. apply Forall_map, Forall_forall. intros x _. split; reflexivity.
  - rewrite Hsegs. unfold reset_tracking. rewrite bind_get. unfold store_segments.
    rewrite bind_modify, bind_get. reflexivity.
Qed.

End SegmentInvariants.

(** ** setup, once more *)

Lemma Forall_insert_by_f0 (P : Segment.t -> Prop) s l :
  P s -> Forall P l -> Forall P (VNAConfig.insert_by_f0 s l).
Proof.
  intros Hs Hl. eapply Permutation_Forall; [apply insert_by_f0_perm|].
  now constructor.
Qed.


Section SetupState.

Context {D : Type} {link : ScpiLink D}.

Local Open Scope string_scope.





End SetupState.

(** ** The lookups of the configuration *)

Lemma item_raised {A} (entry : option A) e :
  Mapping.item entry = Raised e -> e = KeyError.
Proof. destruct entry; simpl; intro H; inversion H. reflexivity. Qed.

Lemma item_returned {A} (entry : option A) a :
  Mapping.item entry = Returned a <-> entry = Some a.
Proof.
  destruct entry; simpl; split; intro H; inversion H; reflexivity.
Qed.







Section SetupMapping.

Context {D : Type} {link : ScpiLink D}.

Local Open Scope string_scope.


End SetupMapping.

(** ** Item assignment *)

Lemma setitem_nth_same {A} (l : list A) i a v :
  nth_error l i = Some a -> nth_error (setitem l i v) i = Some v.
Proof.
  revert i. induction l as [|h t IH]; intros [|i] H; try discriminate; simpl.
  - reflexivity.
  - now apply IH.
Qed.

Lemma setitem_nth_other {A} (l : list A) i j v :
  j <> i -> nth_error (setitem l i v) j = nth_error l j.
Proof.
  revert i j. induction l as [|h t IH]; intros [|i] [|j] H; simpl;
    try reflexivity; try congruence.
  apply IH. congruence.
Qed.

Lemma setitem_length {A} (l : list A) i v :
  List.length (setitem l i v) = List.length l.
Proof.
  revert i. induction l as [|h t IH]; intros [|i]; simpl; auto.
Qed.

(** ** With the tracking gate closed *)

Lemma with_cfg_same_segments {D} (s : VNA D) :
  with_cfg (VNAConfig.set_segments (VNAConfig.segments (cfg s)) (cfg s)) s = s.
Proof. destruct s as [d [segs tf ts um k o te] m l]. reflexivity. Qed.

Section GateClosed.

Context {D : Type} {link : ScpiLink D} {num : Numerics}.

Variable c0 : VNAConfig.t.

Let untouched (s : VNA D) : Prop := cfg s = c0.
Let quiet (c : call) : Prop := is_write_values c = false.

Hypothesis gate_closed :
  (VNAConfig.track_freq c0 || VNAConfig.track_span c0)
    && VNAConfig.track_enabled c0 = false.

Lemma no_nudge : VNAConfig.track_freq c0 && VNAConfig.track_enabled c0 = false.
Proof.
  destruct (VNAConfig.track_freq c0), (VNAConfig.track_span c0),
    (VNAConfig.track_enabled c0); simpl in *; congruence.
Qed.

Let untouched_res : forall d s, untouched s -> untouched (with_res d s).
Proof. intros d s H. exact H. Qed.

Lemma keeps_read_markers_quiet idx data s :
  keeps untouched quiet (read_markers idx data) s.
Proof.
  revert data s. induction idx as [|i idx IH]; intros data s; simpl.
  - apply keeps_ret.
  - apply keeps_bind.
    + unfold get_marker_data, res_query_ascii_values. run_step untouched_res tt.
    + intros vals _.
      destruct vals as [|? [|? [|? [|? [|? ?]]]]]; try apply keeps_raise.
      apply IH.
Qed.

Lemma keeps_sample_gate_closed elapsed s :
  keeps untouched quiet (sample elapsed) s.
Proof.
  unfold sample. apply keeps_bind.
  { unfold trigger, res_write, res_query. apply keeps_get_bind.
    destruct (negb _); [destruct (is_N5232A s)|]; run_steps untouched_res tt. }
  intros _ _. apply keeps_get_bind. apply keeps_bind.
  - destruct (VNAConfig.use_markers _).
    + unfold acquire_markers. apply keeps_get_bind. apply keeps_bind.
      { apply keeps_except_visa, keeps_read_markers_quiet. }
      intros [data|] _; [|apply keeps_ret].
      apply keeps_get_bind. destruct (truthy _ && _); [apply keeps_ret|].
      apply keeps_bind; [|intros; apply keeps_ret].
      apply keeps_modify. intro H. exact H.
    + unfold acquire_raw. apply keeps_bind.
      { unfold read_sweep, get_sweep_data, get_freq_data, res_query_ascii_values.
        apply keeps_bind.
        - apply keeps_get_bind. destruct (is_N5232A _); run_steps untouched_res tt.
        - intros raw _. apply keeps_bind; [apply keeps_lift|]. intros cplx _.
          apply keeps_bind; [|intros; apply keeps_ret].
          apply keeps_get_bind. destruct (is_N5232A _); run_steps untouched_res tt. }
      intros sweep _. generalize (after (read_sweep (after (trigger s)))).
      intros s2 Hs2. revert Hs2. unfold fit_sweep. apply keeps_get_bind.
      intro Hs2. unfold untouched in Hs2. rewrite Hs2, no_nudge.
      rewrite fit_segments_no_nudge. unfold store_segments.
      rewrite <- Hs2, bind_modify, with_cfg_same_segments.
      assert (Hu : untouched s2) by exact Hs2. revert Hu.
      apply keeps_bind; [apply keeps_lift|].
      intros [d [|]] _; cbn [fst snd]; [|apply keeps_ret].
      apply keeps_get_bind. intro Hu. unfold untouched in Hu.
      rewrite Hu, no_nudge. split; [exact Hu | constructor].
  - intros [data|] _; [|apply keeps_ret].
    apply keeps_bind; [|intros; apply keeps_ret].
    unfold retrack. apply keeps_get_bind. intro Hu.
    unfold untouched in Hu. rewrite Hu, gate_closed. split; [exact Hu | constructor].
Qed.

End GateClosed.

Section GateClosedCycle.

Context {D : Type} {link : ScpiLink D} {num : Numerics}.

(** X5.  With the tracking gate closed (tracking disabled, or neither
    frequency nor span tracking configured) a cycle never changes the
    configuration, not even [f0] or [span] of a segment on lost track,
    and never writes the segment table. *)
Theorem gate_closed_cycle_is_passive (elapsed : Q) (s : VNA D) :
  (VNAConfig.track_freq (cfg s) || VNAConfig.track_span (cfg s))
    && VNAConfig.track_enabled (cfg s) = false ->
  cfg (after (sample elapsed s)) = cfg s /\
  Forall (fun c => is_write_values (fst c) = false) (calls (sample elapsed s)).
Proof.
  intro Hg. exact (@keeps_sample_gate_closed _ _ _ (cfg s) Hg elapsed s eq_refl).
Qed.

(** X6.  [set_segment_enabled] on an index past the end raises
    [IndexError] before any link call and leaves the driver as it was. *)
Theorem set_segment_enabled_out_of_range (i : nat) (b : bool) (s : VNA D) :
  (List.length (VNAConfig.segments (cfg s)) <= i)%nat ->
  set_segment_enabled i b s = mkRun (Raised IndexError) s [].
Proof.
  intro Hi. unfold set_segment_enabled. rewrite bind_get.
  now rewrite (proj2 (nth_error_None _ _) Hi).
Qed.

(** X7.  [set_segment_enabled] on a valid index sets the flag of that
    segment and of no other, touches no other field of any segment, and
    then programs the new list with [set_segments]. *)
Theorem set_segment_enabled_in_range (i : nat) (b : bool) (s : VNA D) seg :
  nth_error (VNAConfig.segments (cfg s)) i = Some seg ->
  let segs' := VNAConfig.segments (cfg (after (set_segment_enabled i b s))) in
  nth_error segs' i = Some (Segment.set_enabled b seg) /\
  (forall j, j <> i ->
             nth_error segs' j = nth_error (VNAConfig.segments (cfg s)) j) /\
  List.length segs' = List.length (VNAConfig.segments (cfg s)) /\
  set_segment_enabled i b s =
    set_segments segs' 1 (with_cfg (VNAConfig.set_segments segs' (cfg s)) s).
Proof.
  intro Hseg. cbv zeta.
  assert (Hrun : set_segment_enabled i b s =
                 set_segments
                   (setitem (VNAConfig.segments (cfg s)) i (Segment.set_enabled b seg))
                   1
                   (with_cfg (VNAConfig.set_segments
                                (setitem (VNAConfig.segments (cfg s)) i
                                         (Segment.set_enabled b seg)) (cfg s)) s)).
  { unfold set_segment_enabled. rewrite bind_get, Hseg.
    unfold store_segments. now rewrite bind_modify, bind_get. }
  assert (Hsegs : VNAConfig.segments (cfg (after (set_segment_enabled i b s))) =
                  setitem (VNAConfig.segments (cfg s)) i (Segment.set_enabled b seg)).
  { rewrite Hrun. now rewrite (proj1 (set_segments_frame _ _ _)). }
  rewrite Hsegs.
  split; [eapply setitem_nth_same; exact Hseg|].
  split; [intros j Hj; now apply setitem_nth_other|].
  split; [apply setitem_length | exact Hrun].
Qed.

End GateClosedCycle.

(** ** track_window at its edges *)

Lemma Qgtb_false_iff (x y : Q) : Qgtb x y = false <-> x <= y.
Proof.
  unfold Qgtb. rewrite negb_false_iff. apply Qle_bool_iff.
Qed.

Lemma truediv_zero (x y : Q) : y == 0 -> truediv x y = Raised ZeroDivisionError.
Proof.
  intro H. unfold truediv.
  destruct (Qeq_bool y 0) eqn:E; [reflexivity|].
  apply Qeq_bool_neq in E. contradiction.
Qed.

(** X8.  On Python floats (the marker readouts) [track_window] raises
    [ZeroDivisionError] when the window's span is zero, and also when the
    fitted bandwidth times the bandwidth factor is zero: the first
    quotient is then 0, which does not trip the test, so the second
    quotient is evaluated. *)
Theorem track_window_zero_division (center span f0 bw k : Q) :
  span == 0 \/ bw * k == 0 ->
  track_window center span f0 bw center_err_default span_err_default k
    = Raised ZeroDivisionError.
Proof.
  intros H. unfold track_window.
  destruct (Qeq_bool span 0) eqn:Es.
  - apply Qeq_bool_eq in Es. now rewrite (truediv_zero _ Es).
  - apply Qeq_bool_neq in Es. destruct H as [H|H]; [contradiction|].
    rewrite (truediv_nonzero _ Es). simpl.
    assert (G : Qgtb (bw * k / span) (1 + span_err_default) = false).
    { apply Qgtb_false_iff. rewrite H. unfold Qdiv. rewrite Qmult_0_l.
      discriminate. }
    rewrite G. now rewrite (truediv_zero _ H).
Qed.

(** X9.  Tracking settles: a segment retuned to a readout with both gates
    open (centre := fitted centre, span := fitted bandwidth times factor)
    trips neither check on the same readout again, provided the bandwidth
    is positive and the factor is at least 1.25. *)
Theorem retuned_segment_is_stable (c : VNAConfig.t) (seg : Segment.t) (f b : Q) :
  VNAConfig.track_freq c = true ->
  VNAConfig.track_span c = true ->
  0 < b ->
  5 # 4 <= VNAConfig.get_bw_factor c ->
  let seg' := retune c f b seg in
  track_window (Segment.f0 seg') (Segment.span seg') f b
    center_err_default span_err_default (VNAConfig.get_bw_factor c)
    = Returned (false, false).
Proof.
  intros Hf Hs Hb Hk. unfold retune. rewrite Hf, Hs.
  cbn [Segment.f0 Segment.span Segment.set_f0 Segment.set_span].
  set (k := VNAConfig.get_bw_factor c) in *.
  assert (Hbk : 0 < b * k).
  { apply Qmult_lt_0_compat; [exact Hb|].
    eapply Qlt_le_trans; [|exact Hk]. reflexivity. }
  assert (Hnz : ~ b * k == 0).
  { intro E. rewrite E in Hbk. discriminate. }
  unfold track_window. rewrite (truediv_nonzero _ Hnz). cbn [obind].
  assert (G : Qgtb (b * k / (b * k)) (1 + span_err_default) = false).
  { apply Qgtb_false_iff. unfold Qdiv. rewrite Qmult_inv_r by exact Hnz.
    discriminate. }
  rewrite G. cbn [obind].
  assert (F : Qgtb (Qabs (f - f) + b / 2) (b * k * center_err_default * 0.5)
              = false).
  { apply Qgtb_false_iff.
    assert (E0 : Qabs (f - f) == 0).
    { assert (E : f - f == 0) by ring. rewrite E. reflexivity. }
    rewrite E0, Qplus_0_l.
    assert (E1 : b / 2 == b * (1 # 2)) by (unfold Qdiv; reflexivity).
    assert (E2 : b * k * center_err_default * 0.5 == b * (k * (2 # 5)))
      by (unfold center_err_default; ring).
    rewrite E1, E2. apply Qmult_le_l; [exact Hb|].
    apply Qle_trans with ((5 # 4) * (2 # 5)); [discriminate|].
    apply Qmult_le_compat_r; [exact Hk | discriminate]. }
  now rewrite F.
Qed.

(** ** Malformed replies *)

Lemma deinterleave_parity (n : nat) :
  forall l, (List.length l < n)%nat ->
    if Nat.even (List.length l)
    then exists re im,
        deinterleave l = Returned (re, im) /\
        List.length re = List.length im /\
        (2 * List.length re = List.length l)%nat
    else deinterleave l = Raised ValueError.
Proof.
  induction n as [|n IH]; intros l Hl; [lia|].
  destruct l as [|x [|y rest]].
  - simpl. exists [], []. auto.
  - reflexivity.
  - assert (Hr : (List.length rest < n)%nat) by (simpl in Hl; lia).
    specialize (IH rest Hr).
    change (Nat.even (List.length (x :: y :: rest)))
      with (Nat.even (List.length rest)).
    destruct (Nat.even (List.length rest)).
    + destruct IH as (re & im & E & Hlen & H2).
      exists (x :: re), (y :: im). simpl. rewrite E. simpl.
      repeat split; lia.
    + simpl. now rewrite IH.
Qed.

Section MalformedReplies.

Context {D : Type} {link : ScpiLink D} {num : Numerics}.

Local Open Scope string_scope.

(** X10.  A sweep reply with an odd number of values cannot be split into
    complex pairs: the raw-sweep cycle raises [ValueError] right after
    that read, before the frequency axis is queried, and the error is not
    turned into a no-result. *)
Theorem odd_sweep_reply_raises (elapsed : Q) (s s1 s2 : VNA D)
  (c1 c2 : list (call * option exn)) (raw : list Q) :
  VNAConfig.use_markers (cfg s) = false ->
  trigger s = mkRun (Returned tt) s1 c1 ->
  get_sweep_data 1 s1 = mkRun (Returned raw) s2 c2 ->
  Nat.even (List.length raw) = false ->
  sample elapsed s = mkRun (Raised ValueError) s2 (c1 ++ c2).
Proof.
  intros Hum Htrig Hraw Hodd.
  assert (Hc1 : cfg s1 = cfg s).
  { pose proof (trigger_frame s) as H. now rewrite Htrig in H. }
  assert (Hd : deinterleave raw = Raised ValueError).
  { pose proof (@deinterleave_parity (S (List.length raw)) raw
                  (Nat.lt_succ_diag_r _)) as H.
    now rewrite Hodd in H. }
  unfold sample. rewrite (bind_returned _ _ _ Htrig).
  rewrite bind_get, Hc1, Hum. unfold acquire_raw, read_sweep.
  unfold bind. rewrite Hraw. cbn [result after calls]. rewrite Hd.
  cbn [result after calls lift]. now rewrite app_nil_r.
Qed.

(** X11.  A marker reply that does not hold exactly four values makes the
    cycle raise [ValueError]: the handler around the marker reads only
    catches transport errors.  The staleness cache is left alone. *)
Theorem marker_reply_of_wrong_length (elapsed : Q) (s : VNA D) (d : D)
  (vals : list Q) :
  VNAConfig.use_markers (cfg s) = true ->
  VNAConfig.segments (cfg s) <> [] ->
  query_ascii_values ":CALC{}:MARK{}:BWID:DATA?" [AInt 1; AInt 1] (res s)
    = (Returned vals, d) ->
  List.length vals <> 4%nat ->
  sample elapsed s =
    mkRun (Raised ValueError) (with_res d s)
          [(QueryValues ":CALC{}:MARK{}:BWID:DATA?" [AInt 1; AInt 1], None)].
Proof.
  intros Hum Hne Hq Hlen.
  rewrite (sample_markers elapsed s Hum).
  unfold bind. rewrite (acquire_markers_cases s). cbv zeta.
  destruct (VNAConfig.segments (cfg s)) as [|seg rest]; [congruence|].
  cbn [List.length seq read_markers].
  unfold bind, get_marker_data, res_query_ascii_values, on_link.
  change (Z.of_nat 0 + 1)%Z with 1%Z. rewrite Hq.
  cbn [result after calls raised_by].
  destruct vals as [|? [|? [|? [|? [|? ?]]]]]; try reflexivity.
  simpl in Hlen. congruence.
Qed.

End MalformedReplies.

(** ** The shape of a returned Sample *)

Section SampleShape.

Context {D : Type} {link : ScpiLink D} {num : Numerics}.

Lemma filled_snoc {A} (l : list (option A)) (a : A) :
  filled l -> filled (l ++ [Some a]).
Proof.
  intro H. apply Forall_app. split; [exact H|].
  constructor; [discriminate | constructor].
Qed.

(** A marker loop that returned: one read per index, no link error, one
    filled slot more per index in each of the four marker lists. *)
Lemma read_markers_shape idx :
  forall data (s : VNA D) d',
    result (read_markers idx data s) = Returned d' ->
    calls (read_markers idx data s) =
      map (fun i =>
             (QueryValues ":CALC{}:MARK{}:BWID:DATA?"
                          [AInt 1; AInt (Z.of_nat i + 1)], @None exn)) idx /\
    (List.length (Sample.bw d') = List.length (Sample.bw data) + List.length idx)%nat /\
    (List.length (Sample.f0 d') = List.length (Sample.f0 data) + List.length idx)%nat /\
    (List.length (Sample.q d') = List.length (Sample.q data) + List.length idx)%nat /\
    (List.length (Sample.il d') = List.length (Sample.il data) + List.length idx)%nat /\
    Sample.freq d' = Sample.freq data /\ Sample.ampl d' = Sample.ampl data /\
    (filled (Sample.bw data) -> filled (Sample.bw d')) /\
    (filled (Sample.f0 data) -> filled (Sample.f0 d')) /\
    (filled (Sample.q data) -> filled (Sample.q d')) /\
    (filled (Sample.il data) -> filled (Sample.il d')).
Proof.
  induction idx as [|i idx IH]; intros data s d' H.
  - simpl in H. inversion H. subst. simpl. rewrite !Nat.add_0_r.
    repeat split; auto.
  - simpl in H |- *.
    unfold bind, get_marker_data, res_query_ascii_values, on_link in H |- *.
    destruct (query_ascii_values _ _ (res s)) as [[vals|e] d]; simpl in H |- *;
      [|discriminate].
    destruct vals as [|v1 [|v2 [|v3 [|v4 [|? ?]]]]]; simpl in H; try discriminate.
    specialize (IH _ _ _ H).
    destruct IH as (Hc & H1 & H2 & H3 & H4 & H5 & H6 & F1 & F2 & F3 & F4).
    simpl in H1, H2, H3, H4, H5, H6, F1, F2, F3, F4.
    rewrite length_app in H1, H2, H3, H4. simpl in H1, H2, H3, H4.
    rewrite Hc. repeat split; try lia; try assumption;
      intro F; [apply F1 | apply F2 | apply F3 | apply F4]; now apply filled_snoc.
Qed.

(** An accepted marker cycle is its marker loop followed by tracking. *)
Lemma marker_cycle_accepted elapsed (s : VNA D) d :
  VNAConfig.use_markers (cfg s) = true ->
  result (sample elapsed s) = Returned (Some d) ->
  let rm := read_markers (seq 0 (List.length (VNAConfig.segments (cfg s))))
                         Sample.init s in
  result rm = Returned d /\
  exists rest, calls (sample elapsed s) = calls rm ++ rest.
Proof.
  intros Hum. rewrite (sample_markers elapsed s Hum).
  unfold bind. rewrite (acquire_markers_cases s). cbv zeta.
  set (rm := read_markers _ _ s) in *. clearbody rm.
  destruct rm as [[d0|e] s1 c1]; cbn [result after calls].
  - destruct (truthy (last_sample s) && _); cbn [result after calls];
      [discriminate|].
    destruct (result (retrack d0 _)); cbn [result after calls ret];
      [|discriminate].
    intro H. inversion H. subst d0. split; [reflexivity | eauto].
  - destruct e; cbn [result after calls]; discriminate.
Qed.

(** A raw-sweep cycle that returned a Sample is a fit loop that returned
    it without losing track. *)
Lemma raw_cycle_returned elapsed (s : VNA D) d :
  VNAConfig.use_markers (cfg s) = false ->
  result (sample elapsed s) = Returned (Some d) ->
  exists freq ampl segs',
    fit_segments
      (VNAConfig.track_freq (cfg s) && VNAConfig.track_enabled (cfg s))
      freq ampl (VNAConfig.segments (cfg s)) 0 Sample.init false
      = (segs', Returned (d, false)).
Proof.
  intros Hum H. unfold sample in H.
  destruct (bind_result_inv _ _ _ H) as (u & _ & H1 & _). clear H.
  rewrite bind_get, trigger_frame, Hum in H1.
  destruct (bind_result_inv _ _ _ H1) as (acq & Hacq & H2 & _). clear H1.
  destruct acq as [data|]; [|discriminate].
  destruct (bind_result_inv _ _ _ H2) as (u' & _ & H3 & _). clear H2.
  inversion H3. subst data. clear H3.
  unfold acquire_raw in Hacq.
  destruct (bind_result_inv _ _ _ Hacq) as (sweep & _ & Hfs & _). clear Hacq.
  assert (Hc : cfg (after (read_sweep (after (trigger s)))) = cfg s)
    by (now rewrite read_sweep_frame, trigger_frame).
  set (s2 := after (read_sweep (after (trigger s)))) in *. clearbody s2.
  unfold fit_sweep in Hfs. rewrite bind_get in Hfs. rewrite Hc in Hfs.
  unfold store_segments in Hfs. rewrite bind_modify in Hfs.
  destruct (bind_result_inv _ _ _ Hfs) as (r & Hr & H4 & _). clear Hfs.
  change (snd (fit_segments
                 (VNAConfig.track_freq (cfg s) && VNAConfig.track_enabled (cfg s))
                 (fst sweep) (snd sweep) (VNAConfig.segments (cfg s)) 0
                 Sample.init false) = Returned r) in Hr.
  destruct r as [d' lost]. cbn [fst snd] in H4. destruct lost.
  - rewrite bind_get in H4.
    destruct (bind_result_inv _ _ _ H4) as (u'' & _ & H5 & _). discriminate.
  - inversion H4. subst d'.
    exists (fst sweep), (snd sweep),
      (fst (fit_segments
              (VNAConfig.track_freq (cfg s) && VNAConfig.track_enabled (cfg s))
              (fst sweep) (snd sweep) (VNAConfig.segments (cfg s)) 0
              Sample.init false)).
    rewrite <- Hr. apply surjective_pairing.
Qed.

(** X12.  In marker mode a cycle that returns a Sample has begun, without
    any trigger, with one read of markers 1 to N in order, none of which
    met a link error; the Sample holds N values (no empty slot) for each
    of [bw], [f0], [q], [il] and no raw traces. *)
Theorem marker_cycle_shape (elapsed : Q) (s : VNA D) (d : Sample.t) :
  VNAConfig.use_markers (cfg s) = true ->
  result (sample elapsed s) = Returned (Some d) ->
  let n := List.length (VNAConfig.segments (cfg s)) in
  (exists rest, calls (sample elapsed s) = marker_reads n ++ rest) /\
  List.length (Sample.bw d) = n /\ List.length (Sample.f0 d) = n /\
  List.length (Sample.q d) = n /\ List.length (Sample.il d) = n /\
  filled (Sample.bw d) /\ filled (Sample.f0 d) /\
  filled (Sample.q d) /\ filled (Sample.il d) /\
  Sample.freq d = [] /\ Sample.ampl d = [].
Proof.
  intros Hum Hret n.
  destruct (marker_cycle_accepted elapsed s Hum Hret) as (Hrm & rest & Hcalls).
  destruct (read_markers_shape _ _ _ Hrm)
    as (Hc & H1 & H2 & H3 & H4 & H5 & H6 & F1 & F2 & F3 & F4).
  rewrite length_seq in H1, H2, H3, H4. simpl in H1, H2, H3, H4, H5, H6.
  repeat split; try assumption;
    try (first [apply F1 | apply F2 | apply F3 | apply F4]; constructor).
  exists rest. rewrite Hcalls, Hc. reflexivity.
Qed.

(** X13.  In raw-sweep mode a returned Sample has, for each of [bw],
    [f0], [q], [il], [freq] and [ampl], one slot per segment in segment
    order, empty exactly at the disabled segments. *)
Theorem raw_cycle_slots (elapsed : Q) (s : VNA D) (d : Sample.t) :
  VNAConfig.use_markers (cfg s) = false ->
  result (sample elapsed s) = Returned (Some d) ->
  let segs := VNAConfig.segments (cfg s) in
  slots_of segs (Sample.bw d) /\ slots_of segs (Sample.f0 d) /\
  slots_of segs (Sample.q d) /\ slots_of segs (Sample.il d) /\
  slots_of segs (Sample.freq d) /\ slots_of segs (Sample.ampl d).
Proof.
  intros Hum Hret segs.
  destruct (raw_cycle_returned elapsed s Hum Hret) as (freq & ampl & segs' & Hfit).
  apply (@fit_segments_slots _ _ _ _ _ [] _ _ _ _ _ Hfit).
  repeat split; constructor.
Qed.

(** X14.  Whatever the mode, the row the backend logs for a returned
    Sample is as wide as the header row it wrote for the driver: one
    time column and three columns per segment. *)
Theorem logged_row_matches_header (elapsed log_time t : Q) (s : VNA D)
  (d : Sample.t) :
  result (sample elapsed s) = Returned (Some d) ->
  let n := List.length (VNAConfig.segments (cfg s)) in
  List.length (Backend.header_row (after (sample elapsed s))) = (1 + 3 * n)%nat /\
  List.length (Backend.sample_row log_time (t, d)) = (1 + 3 * n)%nat.
Proof.
  intros Hret n. split.
  - unfold Backend.header_row, get_headers. simpl.
    rewrite !length_app, !length_map.
    pose proof (Forall2_length (proj1 (sample_frame elapsed s))) as Hl.
    fold n in Hl. lia.
  - unfold Backend.sample_row, format_sample. simpl.
    rewrite !length_app.
    destruct (VNAConfig.use_markers (cfg s)) eqn:Hum.
    + destruct (marker_cycle_accepted elapsed s Hum Hret) as (Hrm & _).
      destruct (read_markers_shape _ _ _ Hrm) as (_ & _ & H2 & H3 & H4 & _).
      rewrite length_seq in H2, H3, H4. simpl in H2, H3, H4. fold n in H2, H3, H4.
      lia.
    + destruct (raw_cycle_returned elapsed s Hum Hret)
        as (freq & ampl & segs' & Hfit).
      destruct (@fit_segments_slots _ _ _ _ _ [] _ _ _ _ _ Hfit)
        as (_ & S2 & S3 & S4 & _); [repeat split; constructor|].
      apply Forall2_length in S2, S3, S4. simpl in S2, S3, S4.
      fold n in S2, S3, S4. lia.
Qed.

End SampleShape.

(** ** Sweep programming *)

Lemma flat_map_length_const {A B} (f : A -> list B) n l :
  (forall a, List.length (f a) = n) ->
  List.length (flat_map f l) = (n * List.length l)%nat.
Proof.
  intro H. induction l as [|a l IH]; simpl; [lia|].
  rewrite length_app, H, IH. lia.
Qed.

Section Programming.

Context {D : Type} {link : ScpiLink D}.

Local Open Scope string_scope.
Local Open Scope list_scope.

(** X15.  On the E5071 models [set_segments] is one bulk write whose
    payload is the header [5,1,1,1,0,0], the number of enabled segments
    and one tuple [(f0, span, points, ifbw, power)] per enabled segment
    in list order; disabled segments leave no trace, so the payload has
    [7 + 5*(N-k)] values for [N] segments of which [k] are disabled. *)
Theorem set_segments_payload (segs : list Segment.t) (ch : Z) (s : VNA D) :
  is_N5232A s = false ->
  let enabled := filter Segment.enabled segs in
  let disabled := filter (fun seg => negb (Segment.enabled seg)) segs in
  let payload :=
    [VInt 5; VInt 1; VInt 1; VInt 1; VInt 0; VInt 0;
     VInt (Z.of_nat (List.length enabled))] ++ flat_map data_tuple enabled in
  (exists o, calls (set_segments segs ch s)
             = [(WriteValues ":SENS{}:SEGM:DATA" payload [AInt ch], o)]) /\
  List.length payload = (7 + 5 * (List.length segs - List.length disabled))%nat.
Proof.
  intros Hm enabled disabled payload. split.
  - unfold set_segments. rewrite bind_get, Hm.
    unfold res_write_ascii_values, on_link.
    destruct (write_ascii_values _ _ _ (res s)) as [o d]. simpl.
    rewrite segm_data_spec. eauto.
  - unfold payload. rewrite length_app.
    rewrite (@flat_map_length_const _ _ data_tuple 5%nat) by reflexivity.
    pose proof (enabled_count segs) as Hc. fold enabled disabled in Hc.
    simpl. lia.
Qed.

(** X16.  On the N5232A [set_segments] switches per-segment bandwidth and
    power control on and then writes ["SSTOP"], the number of enabled
    segments and one tuple [(1, points, f0, span, ifbw, 0, power)] per
    enabled segment; a link error on an earlier call leaves the table
    unwritten. *)
Theorem set_segments_payload_n5232a (segs : list Segment.t) (ch : Z) (s : VNA D) :
  is_N5232A s = true ->
  let enabled := filter Segment.enabled segs in
  let payload :=
    [VStr "SSTOP"; VInt (Z.of_nat (List.length enabled))]
    ++ flat_map list_tuple enabled in
  (link_ok (set_segments segs ch s) ->
   calls (set_segments segs ch s) =
     [(Write ":SENS{}:SEGM:BWID:CONT {}" [AInt ch; onoff true], None);
      (Write ":SENS{}:SEGM:POW:CONT {}" [AInt ch; onoff true], None);
      (WriteValues ":SENS{}:SEGM:LIST" payload [AInt ch], None)]) /\
  (forall c e,
      In (c, Some e) (calls (set_segments segs ch s)) ->
      is_write_values c = false ->
      Forall (fun c' => is_write_values (fst c') = false)
             (calls (set_segments segs ch s))).
Proof.
  intros Hm enabled payload.
  unfold set_segments. rewrite bind_get, Hm.
  unfold res_write, res_write_ascii_values, bind, on_link, link_ok.
  rewrite segm_list_spec. fold enabled. fold payload.
  destruct (write _ _ (res s)) as [[u1|e1] d1]; simpl.
  - destruct (write _ _ d1) as [[u2|e2] d2]; simpl.
    + destruct (write_ascii_values _ _ _ d2) as [[u3|e3] d3]; simpl.
      * split; [reflexivity|].
        intros c e [H|[H|[H|[]]]]; inversion H.
      * split.
        { intro H. inversion H as [|? ? _ H']. inversion H' as [|? ? _ H''].
          inversion H'' as [|? ? Hx _]. discriminate Hx. }
        intros c e [H|[H|[H|[]]]]; inversion H. subst. discriminate.
    + split.
      { intro H. inversion H as [|? ? _ H']. inversion H' as [|? ? Hx _].
        discriminate Hx. }
      intros c e _ _. repeat constructor.
  - split.
    { intro H. inversion H as [|? ? Hx _]. discriminate Hx. }
    intros c e _ _. repeat constructor.
Qed.

End Programming.


Section ForcedTrigger.

Context {D : Type} {link : ScpiLink D} {num : Numerics}.

Local Open Scope string_scope.
Local Open Scope list_scope.


End ForcedTrigger.

(** ** The identity string *)

Lemma split_on_without sep s : has_char sep s = false -> split_on sep s = [s].
Proof.
  induction s as [|c s IH]; simpl; [reflexivity|].
  intro H. apply orb_false_iff in H. destruct H as [Hc Hs].
  rewrite Hc, (IH Hs). reflexivity.
Qed.

Lemma split_on_first sep a b :
  has_char sep a = false ->
  split_on sep (a ++ String sep b)%string = a :: split_on sep b.
Proof.
  induction a as [|c a IH]; simpl.
  - intros _. now rewrite Ascii.eqb_refl.
  - intro H. apply orb_false_iff in H. destruct H as [Hc Ha].
    rewrite Hc, (IH Ha). reflexivity.
Qed.

Lemma split_on_nonempty sep s : split_on sep s <> [].
Proof.
  destruct s as [|c s]; simpl; [discriminate|].
  destruct (Ascii.eqb c sep); [discriminate|].
  destruct (split_on sep s); discriminate.
Qed.

(** X18.  [match_device] and [setup] read the model off the second
    comma-separated field of the identity string, with the white space
    around it removed, whether or not further fields follow and whatever
    they and the first field hold; [match_device] accepts exactly the
    models E5071C, E5071B and N5232A there. *)
Theorem match_device_reads_second_field (vendor field tail : string) :
  has_char "," vendor = false ->
  has_char "," field = false ->
  tail = "" \/ (exists rest, tail = String "," rest) ->
  let devname := (vendor ++ "," ++ field ++ tail)%string in
  model_of_idn devname = Returned (strip field) /\
  match_device devname =
    Returned (String.eqb (strip field) "E5071C"
              || String.eqb (strip field) "E5071B"
              || String.eqb (strip field) "N5232A").
Proof.
  intros Hv Hf Ht devname.
  assert (H : model_of_idn devname = Returned (strip field)).
  { unfold model_of_idn, devname.
    change ("," ++ field ++ tail)%string
      with (String "," (field ++ tail))%string.
    rewrite (@split_on_first _ _ _ Hv).
    destruct Ht as [Ht|[rest Ht]]; subst tail.
    - assert (E : (field ++ "")%string = field).
      { clear. induction field as [|c f IH]; simpl; [|rewrite IH]; reflexivity. }
      rewrite E, (@split_on_without _ _ Hf). reflexivity.
    - rewrite (@split_on_first _ _ _ Hf). reflexivity. }
  split; [exact H|]. unfold match_device. rewrite H. reflexivity.
Qed.

Section Identity.

Context {D : Type} {link : ScpiLink D}.

Local Open Scope string_scope.

(** X19.  An identity string without a comma has no second field:
    [match_device] raises [IndexError], and so does [setup], after the
    reset and the identity query and before any other call, leaving
    [model] as it was. *)
Theorem identity_without_comma (config : Config.t) (s : VNA D) (d1 d2 : D)
  (devname : string) :
  has_char "," devname = false ->
  reset (res s) = (Returned tt, d1) ->
  query "*IDN?" [] d1 = (Returned devname, d2) ->
  match_device devname = Raised IndexError /\
  result (setup config s) = Raised IndexError /\
  calls (setup config s) = [(Reset, None); (Query "*IDN?" [], None)] /\
  model (after (setup config s)) = model s.
Proof.
  intros Hc Hr Hq.
  assert (Hm : model_of_idn devname = Raised IndexError).
  { unfold model_of_idn. now rewrite (@split_on_without _ _ Hc). }
  split; [unfold match_device; now rewrite Hm|].
  unfold setup. rewrite bind_modify.
  set (s0 := with_cfg (VNAConfig.init config) s).
  assert (R1 : res_reset s0
               = mkRun (Returned tt) (with_res d1 s0) [(Reset, None)]).
  { unfold res_reset, on_link. change (res s0) with (res s).
    rewrite Hr. reflexivity. }
  assert (R2 : res_query "*IDN?" [] (with_res d1 s0)
               = mkRun (Returned devname) (with_res d2 (with_res d1 s0))
                       [(Query "*IDN?" [], None)]).
  { unfold res_query, on_link. change (res (with_res d1 s0)) with d1.
    rewrite Hq. reflexivity. }
  rewrite (bind_returned _ _ _ R1), (bind_returned _ _ _ R2), Hm.
  rewrite (@bind_raised _ _ _ _ _ _ IndexError _ [] eq_refl).
  cbn [result after calls]. repeat split.
Qed.

End Identity.

(** ** The master instrument of the backend *)

Lemma pick_master_vna pre name post master :
  Forall (fun p => snd p <> "vna"%string) pre ->
  Backend.pick_master (pre ++ (name, "vna"%string) :: post) master = name.
Proof.
  intro H. revert master. induction H as [|[n ty] pre Hty _ IH]; intro master.
  - reflexivity.
  - simpl in *. apply String.eqb_neq in Hty. rewrite Hty. apply IH.
Qed.

Lemma pick_master_last pre name ty master :
  Forall (fun p => snd p <> "vna"%string) pre ->
  Backend.pick_master (pre ++ [(name, ty)]) master = name.
Proof.
  intro H. revert master. induction H as [|[n ty'] pre Hty _ IH]; intro master.
  - simpl. now destruct (String.eqb ty "vna").
  - simpl in *. apply String.eqb_neq in Hty. rewrite Hty. apply IH.
Qed.

(** X20.  [Backend.set_config] picks a master instrument only when none
    is configured: then it is the first instrument of type "vna" if there
    is one, and otherwise the last instrument; a configured master, or an
    empty instrument map, is left alone. *)
Theorem set_config_master_choice (master : string)
  (instruments : list (string * string)) :
  (master <> ""%string -> Backend.set_config_master master instruments = master) /\
  Backend.set_config_master master [] = master /\
  (forall pre name post,
      instruments = pre ++ (name, "vna"%string) :: post ->
      Forall (fun p => snd p <> "vna"%string) pre ->
      Backend.set_config_master "" instruments = name) /\
  (forall pre name ty,
      instruments = pre ++ [(name, ty)] ->
      Forall (fun p => snd p <> "vna"%string) pre ->
      Backend.set_config_master "" instruments = name).
Proof.
  unfold Backend.set_config_master. repeat split.
  - intro H. apply String.eqb_neq in H. now rewrite H.
  - simpl. now rewrite andb_false_r.
  - intros pre name post E Hpre. subst instruments.
    assert (L : Nat.eqb (List.length (pre ++ (name, "vna"%string) :: post)) 0
                = false).
    { rewrite length_app. simpl. apply Nat.eqb_neq. lia. }
    rewrite L. simpl. now apply pick_master_vna.
  - intros pre name ty E Hpre. subst instruments.
    assert (L : Nat.eqb (List.length (pre ++ [(name, ty)])) 0 = false).
    { rewrite length_app. simpl. apply Nat.eqb_neq. lia. }
    rewrite L. simpl. now apply pick_master_last.
Qed.

(** ** The fitter at its edges *)

Module FitterEdges.

Import Fitter FitterFacts.

Local Open Scope R_scope.

(** X21.  [lorentz_fit] raises [ValueError] on an empty amplitude or
    frequency array without consulting the solver, and on non-empty
    arrays hands on whatever the solver raises on the call made (the
    lineshape, the normalised data, the start values). *)
Theorem lorentz_fit_failures curve_fit (freq ampl : list R) (f0 bw pmax : R) :
  (ampl = [] \/ freq = [] ->
   lorentz_fit curve_fit freq ampl f0 bw pmax = Raised ValueError) /\
  (forall maxa minf maxf e,
      np_max ampl = Returned maxa ->
      np_min freq = Returned minf ->
      np_max freq = Returned maxf ->
      curve_fit lorentz_fn
                (map (fun f => (f - minf) / (maxf - minf)) freq)
                (map (fun a => a / maxa) ampl) (f0, bw, pmax) None
        = Raised e ->
      lorentz_fit curve_fit freq ampl f0 bw pmax = Raised e).
Proof.
  split.
  - intros [H|H]; subst; unfold lorentz_fit; [reflexivity|].
    destruct ampl; reflexivity.
  - intros maxa minf maxf e Ha Hmin Hmax Hs. unfold lorentz_fit.
    rewrite Ha. simpl. rewrite Hmin, Hmax. simpl. now rewrite Hs.
Qed.

(** X22.  When the normalised centre the solver hands back for the call
    made by [lorentz_fit] lies in [0,1], [lorentz_fit] returns, and the
    centre frequency it returns lies inside the sweep, between the
    smallest and the largest frequency. *)
Theorem lorentz_fit_centre_in_window curve_fit (freq ampl : list R)
  (f0 bw pmax maxa minf maxf a b c : R) :
  np_max ampl = Returned maxa ->
  np_min freq = Returned minf ->
  np_max freq = Returned maxf ->
  curve_fit lorentz_fn
            (map (fun f => (f - minf) / (maxf - minf)) freq)
            (map (fun y => y / maxa) ampl) (f0, bw, pmax) None
    = Returned (a, b, c) ->
  0 <= a <= 1 ->
  (exists vbw vq vil,
      lorentz_fit curve_fit freq ampl f0 bw pmax
        = Returned (vbw, a * (maxf - minf) + minf, vq, vil)) /\
  minf <= a * (maxf - minf) + minf <= maxf.
Proof.
  intros Ha Hmin Hmax Hs Hr. split.
  - unfold lorentz_fit. rewrite Ha. simpl. rewrite Hmin, Hmax. simpl.
    rewrite Hs. simpl. eauto.
  - assert (minf <= maxf) by (eapply np_min_le_max; eassumption).
    split; nra.
Qed.

(** X23.  For a bandwidth other than zero (where the quotient of the
    code is defined) the lineshape takes the value [pmax] at the centre,
    never exceeds [pmax] (for a non-negative [pmax]) and is symmetric
    about the centre. *)
Theorem lorentz_fn_peak (x f0 bw pmax d : R) :
  bw <> 0 ->
  lorentz_fn f0 f0 bw pmax = pmax /\
  (0 <= pmax -> lorentz_fn x f0 bw pmax <= pmax) /\
  lorentz_fn (f0 + d) f0 bw pmax = lorentz_fn (f0 - d) f0 bw pmax.
Proof.
  intros _. unfold lorentz_fn. repeat split.
  - replace (1 + 4 * ((f0 - f0) / bw) ^ 2) with 1 by (unfold Rdiv; ring).
    rewrite sqrt_1. field.
  - intro Hp.
    assert (H1 : 1 <= sqrt (1 + 4 * ((x - f0) / bw) ^ 2)).
    { rewrite <- sqrt_1 at 1. apply sqrt_le_1_alt.
      pose proof (pow2_ge_0 ((x - f0) / bw)). lra. }
    apply (Rmult_le_reg_r (sqrt (1 + 4 * ((x - f0) / bw) ^ 2))); [lra|].
    unfold Rdiv. rewrite Rmult_assoc, Rinv_l by lra. nra.
  - do 3 f_equal. unfold Rdiv. ring.
Qed.

(** X24.  Half a bandwidth off centre the lineshape is down to
    [pmax / sqrt 2]: [bw] is the full width at half power. *)
Theorem lorentz_fn_half_power (f0 bw pmax : R) :
  bw <> 0 ->
  lorentz_fn (f0 + bw / 2) f0 bw pmax = pmax / sqrt 2 /\
  lorentz_fn (f0 - bw / 2) f0 bw pmax = pmax / sqrt 2.
Proof.
  intro Hbw. unfold lorentz_fn. split; do 2 f_equal; field; exact Hbw.
Qed.

End FitterEdges.

(* ================================================================== *)
(** * The further properties on the simulated instrument *)

Local Open Scope Q_scope.
Local Open Scope string_scope.
Local Open Scope list_scope.

(** X3 on the simulated analyzer. *)
Lemma reset_tracking_restores_witness :
  map Segment.f0
    (VNAConfig.segments
       (cfg (after (@reset_tracking _ Bench.link
                      (Bench.after_all [ReqSample 0] Bench.marker_session)))))
    = [100].
Proof.
  refine (proj1 (@reset_tracking_restores _ Bench.link Bench.numerics
                   [ReqSample 0] Bench.marker_session _)).
  repeat constructor.
Defined.

(** X5 on the simulated analyzer: with both tracking gates off a marker
    cycle leaves the configuration as it was. *)
Lemma gate_closed_cycle_is_passive_witness :
  cfg (after (Bench.sample 0 Bench.marker_session_off))
    = cfg Bench.marker_session_off.
Proof.
  exact (proj1 (@gate_closed_cycle_is_passive _ Bench.link Bench.numerics 0
                  Bench.marker_session_off eq_refl)).
Defined.

(** X6 on a session of one segment: index 3 is past the end. *)
Lemma set_segment_enabled_out_of_range_witness :
  @set_segment_enabled _ Bench.link 3 false Bench.marker_session
    = mkRun (Raised IndexError) Bench.marker_session [].
Proof.
  apply (@set_segment_enabled_out_of_range _ Bench.link 3 false
           Bench.marker_session).
  simpl. lia.
Defined.

(** X7 on a session of one segment: index 0 is switched off. *)
Lemma set_segment_enabled_in_range_witness :
  nth_error
    (VNAConfig.segments
       (cfg (after (@set_segment_enabled _ Bench.link 0 false
                      Bench.marker_session)))) 0
    = Some (Segment.set_enabled false Bench.tm010).
Proof.
  exact (proj1 (@set_segment_enabled_in_range _ Bench.link 0 false
                  Bench.marker_session Bench.tm010 eq_refl)).
Defined.

(** X8 on a window of span zero. *)
Lemma track_window_zero_division_witness :
  track_window 100 0 101 0.5 center_err_default span_err_default 8
    = Raised ZeroDivisionError.
Proof.
  apply (@track_window_zero_division 100 0 101 0.5 8).
  left. reflexivity.
Defined.

(** X9 on the readout [(f0, bw) = (101, 0.5)] with factor 8. *)
Lemma retuned_segment_is_stable_witness :
  track_window 101 (0.5 * 8) 101 0.5 center_err_default span_err_default 8
    = Returned (false, false).
Proof.
  apply (@retuned_segment_is_stable (cfg Bench.marker_session) Bench.tm010
           101 0.5); [reflexivity | reflexivity | reflexivity |].
  vm_compute. discriminate.
Defined.

(** X10 on the simulated analyzer: a sweep reply of three values. *)
Lemma odd_sweep_reply_raises_witness :
  result (Bench.sample 0 Bench.raw_session_odd) = Raised ValueError.
Proof.
  refine (f_equal (@result _ _)
            (@odd_sweep_reply_raises _ Bench.link Bench.numerics 0
               Bench.raw_session_odd
               (after (@trigger _ Bench.link Bench.raw_session_odd))
               (after (@get_sweep_data _ Bench.link 1
                         (after (@trigger _ Bench.link Bench.raw_session_odd))))
               (calls (@trigger _ Bench.link Bench.raw_session_odd))
               (calls (@get_sweep_data _ Bench.link 1
                         (after (@trigger _ Bench.link Bench.raw_session_odd))))
               [3; 4; 6] _ _ _ _));
    vm_compute; reflexivity.
Defined.

(** X11 on the simulated analyzer: a marker reply of three values. *)
Lemma marker_reply_of_wrong_length_witness :
  result (Bench.sample 0 Bench.marker_session_short) = Raised ValueError.
Proof.
  refine (f_equal (@result _ _)
            (@marker_reply_of_wrong_length _ Bench.link Bench.numerics 0
               Bench.marker_session_short (Bench.e5071c [])
               [0.5; 101; 202] _ _ _ _)).
  - reflexivity.
  - discriminate.
  - reflexivity.
  - simpl. lia.
Defined.

(** X12 on the simulated analyzer: the cycle starts with the read of
    marker 1. *)
Lemma marker_cycle_shape_witness :
  exists rest,
    calls (Bench.sample 0 Bench.marker_session) = marker_reads 1 ++ rest.
Proof.
  exact (proj1 (@marker_cycle_shape _ Bench.link Bench.numerics 0
                  Bench.marker_session Bench.readout_101 eq_refl eq_refl)).
Defined.

(** X13 on the simulated analyzer: the slot of the disabled second
    segment is the empty one. *)
Lemma raw_cycle_slots_witness :
  slots_of [Bench.tm010; Bench.te011_off] (Sample.f0 Bench.sample_peak).
Proof.
  exact (proj1 (proj2 (@raw_cycle_slots _ Bench.link Bench.numerics 0
                         Bench.raw_session_peak Bench.sample_peak
                         eq_refl eq_refl))).
Defined.

(** X14 on the simulated analyzer: two segments, seven columns. *)
Lemma logged_row_matches_header_witness :
  List.length (Backend.header_row
                 (after (Bench.sample 0 Bench.raw_session_peak))) = 7%nat /\
  List.length (Backend.sample_row 2 (5, Bench.sample_peak)) = 7%nat.
Proof.
  exact (@logged_row_matches_header _ Bench.link Bench.numerics 0 2 5
           Bench.raw_session_peak Bench.sample_peak eq_refl).
Defined.

(** X15 on two segments, one of them disabled: twelve values. *)
Lemma set_segments_payload_witness :
  List.length
    ([VInt 5; VInt 1; VInt 1; VInt 1; VInt 0; VInt 0; VInt 1]
     ++ data_tuple Bench.tm010) = 12%nat.
Proof.
  exact (proj2 (@set_segments_payload _ Bench.link
                  [Bench.tm010; Bench.te011_off] 1 Bench.marker_session
                  eq_refl)).
Defined.

(** X16 on the simulated N5232A. *)
Lemma set_segments_payload_n5232a_witness :
  calls (@set_segments _ Bench.link [Bench.tm010; Bench.te011_off] 1
           Bench.n5232a_session) =
    [(Write ":SENS{}:SEGM:BWID:CONT {}" [AInt 1; AStr "ON"], None);
     (Write ":SENS{}:SEGM:POW:CONT {}" [AInt 1; AStr "ON"], None);
     (WriteValues ":SENS{}:SEGM:LIST"
        ([VStr "SSTOP"; VInt 1] ++ list_tuple Bench.tm010) [AInt 1], None)].
Proof.
  apply (proj1 (@set_segments_payload_n5232a _ Bench.link
                  [Bench.tm010; Bench.te011_off] 1 Bench.n5232a_session
                  eq_refl)).
  repeat constructor.
Defined.


(** X18 on an identity string whose model field starts with the next-line
    character U+0085, and on one of two fields only. *)
Lemma match_device_reads_second_field_witness :
  match_device ("V," ++ String (ascii_of_nat 133) "E5071C,1") = Returned true /\
  match_device "a,E5071B" = Returned true.
Proof.
  split.
  - exact (proj2 (@match_device_reads_second_field "V"
                    (String (ascii_of_nat 133) "E5071C") ",1"
                    eq_refl eq_refl (or_intror (ex_intro _ "1" eq_refl)))).
  - exact (proj2 (@match_device_reads_second_field "a" "E5071B" ""
                    eq_refl eq_refl (or_introl eq_refl))).
Defined.

(** X19 on an analyzer that answers [*IDN?] with its model alone. *)
Lemma identity_without_comma_witness :
  result (Bench.setup Bench.marker_config (Bench.fresh Bench.nameless))
    = Raised IndexError.
Proof.
  refine (proj1 (proj2 (@identity_without_comma _ Bench.link
                          Bench.marker_config (Bench.fresh Bench.nameless)
                          Bench.nameless Bench.nameless "E5071C" _ _ _)));
    reflexivity.
Defined.


(** X20 on three instruments: the analyzer in the middle becomes the
    master. *)
Lemma set_config_master_choice_witness :
  Backend.set_config_master ""
    [("stage", "thermometer"); ("vna0", "vna"); ("vna1", "vna")] = "vna0".
Proof.
  refine (proj1 (proj2 (proj2 (@set_config_master_choice ""
                                 [("stage", "thermometer"); ("vna0", "vna");
                                  ("vna1", "vna")])))
            [("stage", "thermometer")] "vna0" [("vna1", "vna")] eq_refl _).
  repeat constructor. discriminate.
Defined.

Module FitterEdgesBench.

Import Fitter FitterFacts FitterEdges.

Local Open Scope R_scope.

(** X22 on three samples, with the stand-in solver started at 0.5. *)
Lemma lorentz_fit_centre_in_window_witness :
  fold_left Rmin [1; 2] 0
    <= 0.5 * (fold_left Rmax [1; 2] 0 - fold_left Rmin [1; 2] 0)
       + fold_left Rmin [1; 2] 0
    <= fold_left Rmax [1; 2] 0.
Proof.
  eapply (proj2 (@lorentz_fit_centre_in_window flipped_start [0; 1; 2]
                   [1; 2; 1] 0.5 0.5 1 _ _ _ 0.5 _ _
                   eq_refl eq_refl eq_refl eq_refl _)).
  Unshelve. lra.
Defined.

(** X24 for a bandwidth of 2 around 0. *)
Lemma lorentz_fn_half_power_witness :
  lorentz_fn (0 + 2 / 2) 0 2 1 = 1 / sqrt 2.
Proof.
  apply (proj1 (@lorentz_fn_half_power 0 2 1 ltac:(lra))).
Defined.

(** X21 on an empty frequency array, and on two points, which the
    stand-in solver refuses. *)
Lemma lorentz_fit_failures_witness :
  lorentz_fit flipped_start [] [1] 0.5 0.5 1 = Raised ValueError /\
  lorentz_fit needs_three_points [0; 1] [1; 2] 0.5 0.5 1 = Raised TypeError.
Proof.
  split.
  - exact (proj1 (@lorentz_fit_failures flipped_start [] [1] 0.5 0.5 1)
             (or_intror eq_refl)).
  - eapply (proj2 (@lorentz_fit_failures needs_three_points [0; 1] [1; 2]
                     0.5 0.5 1)); reflexivity.
Defined.

(** X23 for a bandwidth of 2: the value at the centre. *)
Lemma lorentz_fn_peak_witness : lorentz_fn 0 0 2 1 = 1.
Proof.
  apply (proj1 (@lorentz_fn_peak 0 0 2 1 0 ltac:(lra))).
Defined.

End FitterEdgesBench.
